(** * Arka MCP Gateway: authorization and credential broker

    A shallow embedding of the parts of the gateway's web client that decide
    permission display, request retry, enterprise gating and password
    validation, together with models of the server-side contracts the client
    talks to.  Client functions are transcribed from the JavaScript sources;
    server-side operations whose code is not in this repository
    are modelled from the specification and marked as such. *)

From Stdlib Require Import ZArith NArith Lia Bool.
From stdpp Require Import base list strings gmap.

Local Open Scope string_scope.
Local Open Scope list_scope.

(** ** Permission resolution as shown on the user-management pages *)

Module AdminUsers.

(** A row of [userTools] as returned by
    [GET /api/admin/users/:email/servers/:id/tool-permissions].  The JSON
    field [user_override] is [null] when the user inherits the organisation
    default. *)
Record Tool := mkTool {
  tool_id : string;
  display_name : string;
  category : string;
  is_dangerous : bool;
  readonly : bool;
  org_enabled : bool;
  user_override : option bool;
  effective_access : bool
}.

(** The object spread [{...tool, user_override: o, effective_access: e}]. *)
Definition with_access (tool : Tool) (o : option bool) (e : bool) : Tool :=
  {| tool_id := tool_id tool;
     display_name := display_name tool;
     category := category tool;
     is_dangerous := is_dangerous tool;
     readonly := readonly tool;
     org_enabled := org_enabled tool;
     user_override := o;
     effective_access := e |}.

(** The JavaScript [a ?? b] on a nullable boolean. *)
Definition nullish (a : option bool) (b : bool) : bool :=
  match a with
  | Some v => v
  | None => b
  end.

(** The page state the two handlers read and write: the selected user (an
    e-mail address, or [null]) and the rows on display. *)
Record Page := mkPage {
  selectedUser : option string;
  userTools : list Tool
}.

(** The mapping function handed to [setUserTools] inside [toggleUserTool]. *)
Definition toggle_row (toolId : string) (currentEnabled : bool) (tool : Tool) : Tool :=
  if decide (tool_id tool = toolId)
  then with_access tool (Some (negb currentEnabled))
         (if org_enabled tool then negb currentEnabled else false)
  else tool.

(** [toggleUserTool(toolId, currentEnabled)].  [put_ok] tells whether the
    awaited [api.put] resolved; when it rejects only a toast is shown and the
    rows are left alone. *)
Definition toggleUserTool (put_ok : bool) (toolId : string) (currentEnabled : bool)
    (p : Page) : Page :=
  match selectedUser p with
  | None => p
  | Some _ =>
      if put_ok
      then {| selectedUser := selectedUser p;
              userTools := map (toggle_row toolId currentEnabled) (userTools p) |}
      else p
  end.

(** The mapping function handed to [setUserTools] inside [removeUserOverride]. *)
Definition reset_row (toolId : string) (tool : Tool) : Tool :=
  if decide (tool_id tool = toolId)
  then with_access tool None (org_enabled tool)
  else tool.

(** [removeUserOverride(toolId)]; [delete_ok] tells whether [api.delete]
    resolved. *)
Definition removeUserOverride (delete_ok : bool) (toolId : string) (p : Page) : Page :=
  match selectedUser p with
  | None => p
  | Some _ =>
      if delete_ok
      then {| selectedUser := selectedUser p;
              userTools := map (reset_row toolId) (userTools p) |}
      else p
  end.

(** The per-row switch: [checked], [disabled] and what its
    [onCheckedChange] passes as [currentEnabled]. *)
Definition switch_checked (tool : Tool) : bool :=
  nullish (user_override tool) (org_enabled tool).

Definition switch_disabled (tool : Tool) : bool :=
  negb (org_enabled tool) || readonly tool.

(** The switch calls [toggleUserTool(tool.tool_id, checked)] with the value
    it currently shows. *)
Definition onCheckedChange (put_ok : bool) (tool : Tool) (p : Page) : Page :=
  toggleUserTool put_ok (tool_id tool) (switch_checked tool) p.

(** The decision written the way the specification words it: false when the
    organisation flag is off, otherwise the override row's value when there
    is one, otherwise true. *)
Definition effectiveAccess_spec (org : bool) (override : option bool) : bool :=
  if negb org then false
  else match override with
       | Some enabled => enabled
       | None => true
       end.

(** A row is coherent when the flag it displays is the decision computed from
    the two inputs it displays. *)
Definition coherent (tool : Tool) : Prop :=
  effective_access tool = effectiveAccess_spec (org_enabled tool) (user_override tool).

End AdminUsers.

(** ** The older single-page admin view *)

Module Admin.

Import AdminUsers.

(** The switch of the "User Tool Access" card: [checked] is
    [tool.user_override ?? true], [disabled] is [!tool.org_enabled]. *)
Definition switch_checked (tool : Tool) : bool := nullish (user_override tool) true.

Definition switch_disabled (tool : Tool) : bool := negb (org_enabled tool).

End Admin.

(** ** The shared HTTP client ([lib/api.js]) *)

Module Api.

(** The part of an axios request configuration the interceptor looks at: the
    request [url] (possibly undefined) and the private [_retry] mark. *)
Record Config := mkConfig {
  url : option string;
  _retry : bool
}.

(** [error.response]: the HTTP status and the [data.detail] string, when the
    body carries one. *)
Record Response := mkResponse {
  status : Z;
  detail : option string
}.

(** An axios error: the configuration of the request that failed, its
    message and the response, absent on network failures. *)
Record AxiosError := mkAxiosError {
  config : Config;
  message : string;
  response : option Response
}.

(** What the interceptor rejects with: either the custom error built for
    status 402 (carrying [isEnterpriseFeature = true], [status = 402], the
    message and the original error) or an axios error passed on unchanged. *)
Inductive Rejection :=
| EnterpriseError (errorMessage : string) (originalError : AxiosError)
| Plain (error : AxiosError).

(** The two module-level variables. A queued callback
    [() => resolve(api(originalRequest))] is represented by the
    configuration it re-sends. *)
Record Client := mkClient {
  isRefreshing : bool;
  refreshSubscribers : list Config
}.

Definition idle : Client := {| isRefreshing := false; refreshSubscribers := [] |}.

(** [s.includes(search)]. *)
Fixpoint includes (s search : string) : bool :=
  String.prefix search s ||
  match s with
  | EmptyString => false
  | String _ rest => includes rest search
  end.

Definition skipRefreshUrls : list string :=
  [ "/api/auth/admin/login"; "/api/auth/logout"; "/api/auth/refresh" ].

(** [skipRefreshUrls.some((url) => originalRequest.url?.includes(url))]. *)
Definition shouldSkipRefresh (originalRequest : Config) : bool :=
  existsb (fun u =>
             match url originalRequest with
             | Some s => includes s u
             | None => false
             end) skipRefreshUrls.

(** [error.response?.status === n]. *)
Definition status_is (error : AxiosError) (n : Z) : bool :=
  match response error with
  | Some r => Z.eqb (status r) n
  | None => false
  end.

Definition enterpriseDefaultMessage : string :=
  "This is an Enterprise Edition feature. Contact support@kenislabs.com or visit kenislabs.com.com for more information.".

(** [error.response?.data?.detail || default]: an absent or empty detail is
    falsy. *)
Definition errorMessage (error : AxiosError) : string :=
  match response error with
  | Some r =>
      match detail r with
      | Some d => if decide (d = "") then enterpriseDefaultMessage else d
      | None => enterpriseDefaultMessage
      end
  | None => enterpriseDefaultMessage
  end.

Definition mark_retry (c : Config) : Config :=
  {| url := url c; _retry := true |}.

(** Requests the client puts on the wire and the navigation it triggers. *)
Inductive Effect :=
| Send (c : Config)
| PostRefresh
| Redirect (href : string).

(** How a run of the rejection handler leaves the promise it returns, up to
    its first suspension point. *)
Inductive Handled :=
| Rejected (r : Rejection)
  (** [return Promise.reject(...)] *)
| Queued
  (** a pending promise whose callback sits in [refreshSubscribers] *)
| AwaitingRefresh (originalRequest : Config).
  (** suspended at [await axios.post("/api/auth/refresh", ...)] *)

(** The rejection handler from its entry to its first [return] or [await]. *)
Definition onRejected (st : Client) (error : AxiosError) : Client * Handled :=
  let originalRequest := config error in
  if status_is error 402 then
    (st, Rejected (EnterpriseError (errorMessage error) error))
  else if status_is error 401
          && negb (_retry originalRequest)
          && negb (shouldSkipRefresh originalRequest) then
    if isRefreshing st then
      ({| isRefreshing := isRefreshing st;
          refreshSubscribers := refreshSubscribers st ++ [originalRequest] |},
       Queued)
    else
      ({| isRefreshing := true; refreshSubscribers := refreshSubscribers st |},
       AwaitingRefresh (mark_retry originalRequest))
  else (st, Rejected (Plain error)).

(** How the handler goes on once the awaited refresh has settled. *)
Inductive Resumed :=
| Retry (released : list Config) (originalRequest : Config)
  (** [onRefreshed()] ran the queued callbacks, then [return api(originalRequest)] *)
| GiveUp (href : string) (r : Rejection).
  (** [window.location.href = href; return Promise.reject(refreshError)] *)

(** The handler from the point where the awaited refresh settles.
    [refreshError = None] is the [try] branch: the flag is cleared,
    [onRefreshed()] calls every queued callback and empties the queue, and
    the original request is sent again.  [Some e] is the [catch] branch: flag
    and queue are reset, the page is redirected and the refresh error is
    rejected. *)
Definition afterRefresh (st : Client) (originalRequest : Config)
    (refreshError : option AxiosError) : Client * Resumed :=
  match refreshError with
  | None => (idle, Retry (refreshSubscribers st) originalRequest)
  | Some e => (idle, GiveUp "/login" (Plain e))
  end.

(** What a caller of [api(config)] finally observes. *)
Inductive Settled :=
| Resolved (data : string)
| Failed (r : Rejection)
| NeverSettles
| OutOfFuel.

(** The reply of the network to one request. *)
Inductive Reply :=
| Success (data : string)
| Failure (message : string) (response : option Response).

(** The environment: the server's reply to a request and the outcome of a
    refresh may both depend on everything the client did so far. *)
Record Network := mkNetwork {
  serve : list Effect -> Config -> Reply;
  refresh : list Effect -> option AxiosError
}.

(** [api(config)] with no other request in flight: the request is sent, a
    failure goes through the rejection handler, and the handler's own
    [api(originalRequest)] calls are the recursive calls.  Requests released
    from the queue are run to completion before the original one is
    re-sent; their results belong to other callers and are dropped. *)
Fixpoint api (fuel : nat) (net : Network) (st : Client) (log : list Effect)
    (c : Config) : Client * list Effect * Settled :=
  match fuel with
  | O => (st, log, OutOfFuel)
  | S fuel' =>
      let log1 := log ++ [Send c] in
      match serve net log1 c with
      | Success d => (st, log1, Resolved d)
      | Failure msg resp =>
          match onRejected st {| config := c; message := msg; response := resp |} with
          | (st1, Rejected r) => (st1, log1, Failed r)
          | (st1, Queued) => (st1, log1, NeverSettles)
          | (st1, AwaitingRefresh orig) =>
              let log2 := log1 ++ [PostRefresh] in
              match afterRefresh st1 orig (refresh net log2) with
              | (st2, GiveUp href r) => (st2, log2 ++ [Redirect href], Failed r)
              | (st2, Retry released again) =>
                  let '(st3, log3) :=
                    fold_left
                      (fun acc q =>
                         let '(s, l, _) := api fuel' net (fst acc) (snd acc) q in (s, l))
                      released (st2, log2) in
                  api fuel' net st3 log3 again
              end
          end
      end
  end.

(** The recogniser the pages apply in their [catch] blocks:
    [error.isEnterpriseFeature || error.status === 402].  On an axios error
    the first property is undefined and [status] is the response status. *)
Definition isEnterpriseFeature (r : Rejection) : bool :=
  match r with
  | EnterpriseError _ _ => true
  | Plain e => false || status_is e 402
  end.

(** [error.message]. *)
Definition message_of (r : Rejection) : string :=
  match r with
  | EnterpriseError m _ => m
  | Plain e => message e
  end.

Inductive Toast :=
| ToastInfo (text : string)
| ToastError (text : string).

(** The [catch] block of [fetchUserTools] on the user-management page. *)
Definition fetchUserTools_catch (error : Rejection) : Toast :=
  if isEnterpriseFeature error then
    ToastInfo (if decide (message_of error = "")
               then "User-level tool permissions are only available in Enterprise Edition"
               else message_of error)
  else ToastError "Failed to load user tool permissions".

(** *** The client as a reactive system

    With several requests in flight the handler runs are interleaved at
    their suspension points.  The machine below keeps, next to the two module
    variables, the requests on the wire and the handler suspended on the
    refresh, and reacts to one input at a time. *)

Record Machine := mkMachine {
  client : Client;
  inflight : list Config;
  awaiting : option Config;
  settled : list (Config * Settled);
  effects : list Effect
}.

Definition boot : Machine :=
  {| client := idle; inflight := []; awaiting := None; settled := []; effects := [] |}.

Inductive Input :=
| Call (c : Config)
  (** the application calls [api(c)] *)
| Answer (c : Config) (r : Reply)
  (** the reply to an in-flight request arrives *)
| RefreshDone (refreshError : option AxiosError).
  (** the refresh request settles *)

#[global] Instance Config_eq_dec : EqDecision Config.
Proof. solve_decision. Defined.

#[global] Instance Effect_eq_dec : EqDecision Effect.
Proof. solve_decision. Defined.

(** Remove the first occurrence of [c]. *)
Fixpoint remove_first (c : Config) (l : list Config) : list Config :=
  match l with
  | [] => []
  | x :: rest => if decide (x = c) then rest else x :: remove_first c rest
  end.

Definition sent (es : list Effect) : list Config :=
  omap (fun e => match e with Send c => Some c | _ => None end) es.

(** One reaction; [None] when the input cannot occur in the current state. *)
Definition react (m : Machine) (i : Input) : option Machine :=
  match i with
  | Call c =>
      Some {| client := client m; inflight := inflight m ++ [c];
              awaiting := awaiting m; settled := settled m;
              effects := effects m ++ [Send c] |}
  | Answer c r =>
      if decide (c ∈ inflight m) then
        let fl := remove_first c (inflight m) in
        match r with
        | Success d =>
            Some {| client := client m; inflight := fl; awaiting := awaiting m;
                    settled := settled m ++ [(c, Resolved d)]; effects := effects m |}
        | Failure msg resp =>
            match onRejected (client m)
                    {| config := c; message := msg; response := resp |} with
            | (st, Rejected rej) =>
                Some {| client := st; inflight := fl; awaiting := awaiting m;
                        settled := settled m ++ [(c, Failed rej)]; effects := effects m |}
            | (st, Queued) =>
                Some {| client := st; inflight := fl; awaiting := awaiting m;
                        settled := settled m; effects := effects m |}
            | (st, AwaitingRefresh orig) =>
                Some {| client := st; inflight := fl; awaiting := Some orig;
                        settled := settled m; effects := effects m ++ [PostRefresh] |}
            end
        end
      else None
  | RefreshDone refreshError =>
      match awaiting m with
      | None => None
      | Some orig =>
          match afterRefresh (client m) orig refreshError with
          | (st, Retry released again) =>
              Some {| client := st; inflight := inflight m ++ released ++ [again];
                      awaiting := None; settled := settled m;
                      effects := effects m ++ map Send (released ++ [again]) |}
          | (st, GiveUp href r) =>
              Some {| client := st; inflight := inflight m; awaiting := None;
                      settled := settled m ++ [(orig, Failed r)];
                      effects := effects m ++ [Redirect href] |}
          end
      end
  end.

Fixpoint run (m : Machine) (inputs : list Input) : option Machine :=
  match inputs with
  | [] => Some m
  | i :: rest =>
      match react m i with
      | Some m' => run m' rest
      | None => None
      end
  end.

(** How often a request for [u] went on the wire, and how many refreshes
    were posted. *)
Definition sends_to (u : option string) (es : list Effect) : nat :=
  length (List.filter (fun c => bool_decide (url c = u)) (sent es)).

Definition is_refresh (e : Effect) : bool :=
  match e with
  | PostRefresh => true
  | _ => false
  end.

Definition refreshes (es : list Effect) : nat :=
  length (List.filter is_refresh es).

End Api.

(** ** Password forms ([lib/password-validation] and its two callers) *)

Module PasswordValidation.

(** A JavaScript string as its sequence of UTF-16 code units: [===] is
    equality of the sequences and [.length] is the number of units. *)
Definition jsstring := list N.

(** The code units of a Latin-1 literal. *)
Fixpoint units (s : string) : jsstring :=
  match s with
  | EmptyString => []
  | String a rest => Ascii.N_of_ascii a :: units rest
  end.

Record FormData := mkFormData {
  oldPassword : jsstring;
  newPassword : jsstring;
  confirmPassword : jsstring
}.

Record Validation := mkValidation {
  isValid : bool;
  error : option string
}.

(** [!s] on a string: only the empty string is falsy. *)
Definition falsy (s : jsstring) : bool :=
  match s with
  | [] => true
  | _ => false
  end.

Definition validatePasswordChange (formData : FormData) : Validation :=
  if falsy (oldPassword formData) || falsy (newPassword formData)
     || falsy (confirmPassword formData) then
    {| isValid := false; error := Some "All fields are required" |}
  else if negb (bool_decide (newPassword formData = confirmPassword formData)) then
    {| isValid := false; error := Some "New passwords do not match" |}
  else if Nat.ltb (length (newPassword formData)) 8 then
    {| isValid := false; error := Some "New password must be at least 8 characters long" |}
  else if bool_decide (oldPassword formData = newPassword formData) then
    {| isValid := false; error := Some "New password must be different from old password" |}
  else
    {| isValid := true; error := None |}.

(** The component state [handleSubmit] writes. *)
Record FormState := mkFormState {
  shown_error : option string;
  loading : bool;
  success : bool
}.

(** The outcome of [api.post('/api/auth/change-password', ...)]: resolved, or
    rejected with [err.response?.data?.detail]. *)
Inductive PostOutcome :=
| PostResolved
| PostRejected (detail : option string).

(** [handleSubmit] of [ChangePasswordModal] and of [ForceChangePassword]
    (the two bodies agree on everything modelled here).  [post] is the
    request; it is only consulted when the form validates. *)
Definition handleSubmit (post : jsstring -> jsstring -> PostOutcome)
    (formData : FormData) (st : FormState) : FormState :=
  let v := validatePasswordChange formData in
  if negb (isValid v) then
    {| shown_error := error v; loading := loading st; success := success st |}
  else
    match post (oldPassword formData) (newPassword formData) with
    | PostResolved =>
        {| shown_error := None; loading := false; success := true |}
    | PostRejected d =>
        {| shown_error :=
             Some (match d with
                   | Some m => if decide (m = "") then "Failed to change password" else m
                   | None => "Failed to change password"
                   end);
           loading := false; success := success st |}
    end.

End PasswordValidation.

(** ** The forgot-password page *)

Module ForgotPassword.

Record PageState := mkPageState {
  step : nat;
  error : option string;
  loading : bool
}.

(** [handleRequestReset].  [post_resolved] tells whether
    [api.post('/api/auth/forgot-password', { email })] resolved; the second
    component lists the e-mail addresses posted. *)
Definition handleRequestReset (email : string) (post_resolved : bool)
    (st : PageState) : PageState * list string :=
  if decide (email = "") then
    ({| step := step st; error := Some "Email is required"; loading := loading st |}, [])
  else if post_resolved then
    ({| step := 2; error := None; loading := false |}, [email])
  else
    ({| step := 2; error := None; loading := false |}, [email]).

End ForgotPassword.

(** ** OAuth credential forms *)

Module ServerSettings.



Section Save.

(** [String.prototype.trim]. *)
Variable trim : string -> string.


End Save.

End ServerSettings.

Module OAuthForm.




Section Handlers.

(** [s.split(',').map(s => s.trim()).filter(s => s)], [scopes.join(', ')],
    [JSON.parse] (returning the parsed value, here in canonical text, or
    failing) and [JSON.stringify(v, null, 2)]. *)
Variable split_scopes : string -> list string.
Variable join_scopes : list string -> string.
Variable json_parse : string -> option string.
Variable json_pretty : string -> string.




End Handlers.

End OAuthForm.

(** ** Server-side contracts

    The request handlers behind the endpoints used above are not part of the
    repository.  The modules below model them from the
    specification, one definition per contract. *)

Module CredentialManager.

Import PasswordValidation.

Record User := mkUser {
  email : string;
  role : string;
  password_hash : option string;
  must_change_password : bool;
  password_expires_at : option Z
}.

Inductive ChangeError :=
| ValidationError
| InvalidCredentials.

Record ResetToken := mkResetToken {
  reset_email : string;
  reset_token : string;
  reset_expires_at : Z;
  reset_used : bool
}.

Record Accounts := mkAccounts {
  users : list User;
  reset_tokens : list ResetToken
}.

Inductive ResetReply :=
| ResetAccepted
| ResetRefused.

Section Hashing.

(** The one-way password hash and the lifetime of a reset token. *)
Variable hash : jsstring -> string.
Variable reset_ttl : Z.

(** Modelled from the spec: [changePassword(user, old, new)] of the
    Temporary Credential Manager, whose server code is missing.  It
    "requires new != old, len(new) >= 8, and correct old; on success clears
    must_change_password and password_expires_at". *)
Definition changePassword (user : User) (old new : jsstring) : ChangeError + User :=
  if bool_decide (new = old) then inl ValidationError
  else if Nat.ltb (length new) 8 then inl ValidationError
  else if bool_decide (password_hash user = Some (hash old)) then
    inr {| email := email user;
           role := role user;
           password_hash := Some (hash new);
           must_change_password := false;
           password_expires_at := None |}
  else inl InvalidCredentials.

(** The change-password endpoint as the forms see it. *)
Definition change_password_endpoint (user : User) (old new : jsstring) : PostOutcome :=
  match changePassword user old new with
  | inr _ => PostResolved
  | inl _ => PostRejected None
  end.

(** Modelled from the spec: [requestPasswordReset(email)], whose server
    code is missing.  It "always reports success regardless of whether the
    email exists" and, when it does exist, "creates a single-use, time-boxed
    reset token".  [token] is the random token drawn for this call. *)
Definition requestPasswordReset (db : Accounts) (address : string) (token : string)
    (now : Z) : ResetReply * Accounts :=
  if existsb (fun u => bool_decide (email u = address)) (users db) then
    (ResetAccepted,
     {| users := users db;
        reset_tokens := reset_tokens db ++
          [ {| reset_email := address; reset_token := token;
               reset_expires_at := now + reset_ttl; reset_used := false |} ] |})
  else (ResetAccepted, db).

End Hashing.

End CredentialManager.

Module ProviderRegistry.

Import ServerSettings.




Section Vault.

(** The credential vault. *)
Variable encrypt : string -> string.
Variable decrypt : string -> option string.



End Vault.


End ProviderRegistry.

Module TokenManager.

Record MCPAccessToken := mkMCPAccessToken {
  id : nat;
  user_id : string;
  token_hash : string;
  token_name : string;
  created_at : Z;
  revoked_at : option Z
}.

Record Issued := mkIssued {
  tokenId : nat;
  plaintextToken : string;
  createdAt : Z
}.

Inductive TokenError := InvalidToken.

Definition active (t : MCPAccessToken) : bool :=
  match revoked_at t with
  | None => true
  | Some _ => false
  end.

(** Setting [revoked_at] on a row that is not yet revoked. *)
Definition revoke_row (now : Z) (t : MCPAccessToken) : MCPAccessToken :=
  match revoked_at t with
  | Some _ => t
  | None =>
      {| id := id t; user_id := user_id t; token_hash := token_hash t;
         token_name := token_name t; created_at := created_at t;
         revoked_at := Some now |}
  end.

Definition next_id (rows : list MCPAccessToken) : nat :=
  S (foldr (fun t m => Nat.max (id t) m) 0 rows).

Section Hashing.

(** The one-way token hash. *)
Variable hash : string -> string.

(** Modelled from the spec: [issue(user, clientLabel)] of the Access Token
    Manager, whose server code is missing.  It "stores only its one-way hash
    plus metadata, and revokes (sets revoked_at) any prior non-revoked token
    belonging to the same user before inserting the new row".  [token] is
    the random token drawn for this call. *)
Definition issue (rows : list MCPAccessToken) (user clientLabel token : string)
    (now : Z) : Issued * list MCPAccessToken :=
  let revoked :=
    map (fun t => if decide (user_id t = user) then revoke_row now t else t) rows in
  let fresh := next_id rows in
  ({| tokenId := fresh; plaintextToken := token; createdAt := now |},
   revoked ++ [ {| id := fresh; user_id := user; token_hash := hash token;
                   token_name := clientLabel; created_at := now;
                   revoked_at := None |} ]).

(** Modelled from the spec: [validate(presentedToken)], whose server code is
    missing.  It "fails with InvalidToken if no matching non-revoked,
    non-expired hash exists"; the token rows of the data model carry no
    expiry, so the match is on hash and revocation. *)
Definition validate (rows : list MCPAccessToken) (presentedToken : string)
    : TokenError + string :=
  match List.find (fun t => bool_decide (token_hash t = hash presentedToken) && active t) rows with
  | Some t => inr (user_id t)
  | None => inl InvalidToken
  end.

(** Modelled from the spec: [revoke(tokenId)], whose server code is missing;
    it "is idempotent". *)
Definition revoke (rows : list MCPAccessToken) (token : nat) (now : Z)
    : list MCPAccessToken :=
  map (fun t => if decide (id t = token) then revoke_row now t else t) rows.

Inductive Op :=
| Issue (user clientLabel token : string) (now : Z)
| Revoke (token : nat) (now : Z).

Definition apply (rows : list MCPAccessToken) (op : Op) : list MCPAccessToken :=
  match op with
  | Issue user clientLabel token now => snd (issue rows user clientLabel token now)
  | Revoke token now => revoke rows token now
  end.

Definition issues_for (user : string) (op : Op) : bool :=
  match op with
  | Issue u _ _ _ => bool_decide (u = user)
  | Revoke _ _ => false
  end.

Definition op_hash_differs (h : string) (op : Op) : Prop :=
  match op with
  | Issue _ _ token _ => hash token <> h
  | Revoke _ _ => True
  end.

End Hashing.

(** The number of non-revoked tokens of a user. *)
Definition active_count (user : string) (rows : list MCPAccessToken) : nat :=
  length (List.filter (fun t => bool_decide (user_id t = user) && active t) rows).

(** No live row carries hash [h], except possibly rows of [user]. *)
Definition only_owner (h user : string) (rows : list MCPAccessToken) : Prop :=
  Forall (fun t => token_hash t = h -> active t = true -> user_id t = user) rows.

(** No live row carries hash [h]. *)
Definition dead (h : string) (rows : list MCPAccessToken) : Prop :=
  Forall (fun t => token_hash t = h -> active t = false) rows.

End TokenManager.

Module FlowEngine.

(** A CSRF state token persisted by [beginAuthorization]. *)
Record PendingState := mkPendingState {
  pending_state : string;
  pending_user : string;
  pending_server : string;
  pending_expires_at : Z
}.

Record UserServerGrant := mkUserServerGrant {
  is_authorized : bool;
  access_token : option string;
  refresh_token : option string;
  expires_at : option Z;
  authorized_at : Z
}.

Record ProviderConfig := mkProviderConfig {
  auth_url : string;
  client_id : string;
  redirect_uri : string;
  scopes : list string
}.

(** What the token endpoint answers to a code exchange. *)
Record Tokens := mkTokens {
  issued_access_token : string;
  issued_refresh_token : option string;
  issued_expires_at : option Z
}.

Record Engine := mkEngine {
  pending : list PendingState;
  grants : gmap (string * string) UserServerGrant
}.

Definition init : Engine := {| pending := []; grants := ∅ |}.

Inductive FlowError :=
| ProviderNotConfigured
| InvalidState
| ProviderError (description : string).

(** The redirect parameters of a callback: [code], [state] and the optional
    [error] with its optional [error_description]. *)
Record Callback := mkCallback {
  cb_server : string;
  cb_code : string;
  cb_state : option string;
  cb_error : option (string * option string)
}.

Section Flow.

(** The provider registry, the vault, the lifetime of a state token and the
    rendering of an authorize URL. *)
Variable resolve : string -> option ProviderConfig.
Variable encrypt : string -> string.
Variable state_ttl : Z.
Variable authorize_url : ProviderConfig -> string -> string.

(** Modelled from the spec: [beginAuthorization(user, server)] of the
    Authorization Flow Engine, whose server code is missing.  It "resolves
    provider config, generates a CSRF-bound opaque state token, persists it
    with a short TTL keyed to (user, server), and returns an authorize URL";
    "no token writes yet".  [state] is the token drawn for this call. *)
Definition beginAuthorization (e : Engine) (user server state : string) (now : Z)
    : FlowError + (string * Engine) :=
  match resolve server with
  | None => inl ProviderNotConfigured
  | Some cfg =>
      let others :=
        List.filter (fun p => negb (bool_decide (pending_user p = user)
                                    && bool_decide (pending_server p = server)))
                    (pending e) in
      inr (authorize_url cfg state,
           {| pending := others ++
                [ {| pending_state := state; pending_user := user;
                     pending_server := server;
                     pending_expires_at := now + state_ttl |} ];
              grants := grants e |})
  end.

(** The pending entry a callback's state answers to: same token, same
    server, not yet expired. *)
Definition lookup_state (e : Engine) (server state : string) (now : Z)
    : option PendingState :=
  List.find (fun p => bool_decide (pending_state p = state)
                      && bool_decide (pending_server p = server)
                      && Z.ltb now (pending_expires_at p))
            (pending e).

(** Modelled from the spec: [handleCallback(server, code, state)], whose
    server code is missing.  It "fails with InvalidState if state is
    missing, expired, or mismatched; fails with ProviderError if the
    provider's callback reports an error parameter, surfacing
    provider-supplied description.  On success, exchanges code for tokens,
    then persists UserServerGrant with tokens encrypted through the Vault";
    "either the full grant is written or none of it is".  [exchange] is the
    answer of the token endpoint to the code: tokens, or the description of
    its failure. *)
Definition handleCallback (e : Engine) (cb : Callback)
    (exchange : string -> string + Tokens) (now : Z) : FlowError + Engine :=
  match cb_state cb with
  | None => inl InvalidState
  | Some state =>
      match lookup_state e (cb_server cb) state now with
      | None => inl InvalidState
      | Some p =>
          match cb_error cb with
          | Some (err, description) =>
              inl (ProviderError (default err description))
          | None =>
              match exchange (cb_code cb) with
              | inl description => inl (ProviderError description)
              | inr tok =>
                  inr {| pending := pending e;
                         grants :=
                           <[ (pending_user p, cb_server cb) :=
                                {| is_authorized := true;
                                   access_token := Some (encrypt (issued_access_token tok));
                                   refresh_token := encrypt <$> issued_refresh_token tok;
                                   expires_at := issued_expires_at tok;
                                   authorized_at := now |} ]> (grants e) |}
              end
          end
      end
  end.

(** The calls made on the engine, with what the environment supplied to
    each. *)
Inductive Call :=
| Begin (user server state : string) (now : Z)
| Handle (cb : Callback) (exchange : string -> string + Tokens) (now : Z).

(** A failing call leaves the engine as it was. *)
Definition perform (e : Engine) (c : Call) : Engine :=
  match c with
  | Begin user server state now =>
      match beginAuthorization e user server state now with
      | inr (_, e') => e'
      | inl _ => e
      end
  | Handle cb exchange now =>
      match handleCallback e cb exchange now with
      | inr e' => e'
      | inl _ => e
      end
  end.

Definition history (calls : list Call) : Engine := fold_left perform calls init.

(** The state tokens handed out in a history. *)
Fixpoint issued (calls : list Call) : list string :=
  match calls with
  | [] => []
  | Begin _ _ state _ :: rest => state :: issued rest
  | Handle _ _ _ :: rest => issued rest
  end.

End Flow.

End FlowEngine.

(** ** Further client code

    The remaining handlers of the pages and components above. *)

Module ToolGroups.

Import AdminUsers.

(** The property names every object literal inherits from
    [Object.prototype]; reading one of them from [{}] yields a function (or,
    for [__proto__], the prototype object), never [undefined]. *)
Definition objectPrototypeKeys : list string :=
  [ "constructor"; "__defineGetter__"; "__defineSetter__"; "hasOwnProperty";
    "__lookupGetter__"; "__lookupSetter__"; "isPrototypeOf";
    "propertyIsEnumerable"; "toString"; "valueOf"; "__proto__";
    "toLocaleString" ].

(** [tool.category || 'Other']. *)
Definition category_key (tool : Tool) : string :=
  if decide (category tool = "") then "Other" else category tool.

(** The [forEach] body of [groupToolsByCategory], run over the remaining
    tools with [grouped] holding the own properties assigned so far.  An own
    property is an array and gets the tool pushed.  Without one,
    [grouped[category]] is read through the prototype: for an inherited
    name it is truthy, the initialisation is skipped and [.push] is not a
    function, so the call throws ([None]); for any other name the array is
    created first. *)
Fixpoint group_into (grouped : gmap string (list Tool)) (tools : list Tool)
    : option (gmap string (list Tool)) :=
  match tools with
  | [] => Some grouped
  | tool :: rest =>
      let category := category_key tool in
      match grouped !! category with
      | Some members => group_into (<[category := members ++ [tool]]> grouped) rest
      | None =>
          if bool_decide (category ∈ objectPrototypeKeys) then None
          else group_into (<[category := [tool]]> grouped) rest
      end
  end.

(** [groupToolsByCategory(tools)]; the order in which [Object.entries]
    lists the groups is not part of the value. *)
Definition groupToolsByCategory (tools : list Tool) : option (gmap string (list Tool)) :=
  group_into ∅ tools.

(** What a group holds once [tools] have been added to [grouped]. *)
Definition extended (grouped : gmap string (list Tool)) (tools : list Tool)
    (c : string) : option (list Tool) :=
  match grouped !! c, List.filter (fun t => bool_decide (category_key t = c)) tools with
  | Some members, more => Some (members ++ more)
  | None, [] => None
  | None, more => Some more
  end.

End ToolGroups.

Module ToolPermissions.

(** A tool as listed by [GET /api/admin/servers/:id/tools]; [is_enabled] may
    be absent. *)
Record ServerTool := mkServerTool {
  name : string;
  tool_display_name : string;
  description : string;
  is_enabled : option bool
}.

(** [tool.is_enabled !== false]. *)
Definition not_disabled (tool : ServerTool) : bool :=
  match is_enabled tool with
  | Some false => false
  | _ => true
  end.

(** The set [fetchServerData] stores in [enabledTools]. *)
Definition fetched_enabled (tools : list ServerTool) : gset string :=
  list_to_set (map name (List.filter not_disabled tools)).

(** [handleToolToggle(toolName)]. *)
Definition handleToolToggle (toolName : string) (prev : gset string) : gset string :=
  if decide (toolName ∈ prev) then prev ∖ {[ toolName ]} else prev ∪ {[ toolName ]}.

(** [toolUpdates] of [handleSave]: one [{tool_name, is_enabled}] per listed
    tool. *)
Definition toolUpdates (availableTools : list ServerTool) (enabledTools : gset string)
    : list (string * bool) :=
  map (fun tool => (name tool, bool_decide (name tool ∈ enabledTools))) availableTools.

End ToolPermissions.

Module ApiEarlier.

Import Api.

(** The rejection handler of the first interceptor in [lib/api.js], which
    has no branch for status 402, up to its first [return] or [await]. *)
Definition onRejected (st : Client) (error : AxiosError) : Client * Handled :=
  let originalRequest := config error in
  if status_is error 401
     && negb (_retry originalRequest)
     && negb (shouldSkipRefresh originalRequest) then
    if isRefreshing st then
      ({| isRefreshing := isRefreshing st;
          refreshSubscribers := refreshSubscribers st ++ [originalRequest] |},
       Queued)
    else
      ({| isRefreshing := true; refreshSubscribers := refreshSubscribers st |},
       AwaitingRefresh (mark_retry originalRequest))
  else (st, Rejected (Plain error)).

End ApiEarlier.

Module ApiInvariants.

Import Api.

(** The module variables and the suspended handler go together: a refresh
    is flagged exactly while a handler waits for one, the queue is empty
    otherwise and holds only unmarked requests outside the authentication
    paths, and the request a handler will send again is marked. *)
Definition consistent (m : Machine) : Prop :=
  (awaiting m = None <-> isRefreshing (client m) = false)
  /\ (isRefreshing (client m) = false -> refreshSubscribers (client m) = [])
  /\ Forall (fun c => _retry c = false /\ shouldSkipRefresh c = false)
       (refreshSubscribers (client m))
  /\ (forall orig, awaiting m = Some orig -> _retry orig = true).

End ApiInvariants.

Module AuthUtils.

Import Api.

(** [error.response]: the custom error built for status 402 carries the
    axios error under [originalError] and has no [response] of its own. *)
Definition response_of (error : Rejection) : option Response :=
  match error with
  | Plain e => response e
  | EnterpriseError _ _ => None
  end.

(** [isPasswordChangeRequired(error)]. *)
Definition isPasswordChangeRequired (error : Rejection) : bool :=
  match response_of error with
  | Some r =>
      if Z.eqb (status r) 403 then
        bool_decide (detail r = Some "PASSWORD_CHANGE_REQUIRED")
        || bool_decide (detail r = Some "PASSWORD_EXPIRED")
      else false
  | None => false
  end.

(** A call of React Router's [navigate(to, { replace })]. *)
Record Navigation := mkNavigation {
  to : string;
  replace : bool
}.

(** [handlePasswordChangeRequired(error, navigate)]: the returned flag and
    the navigation performed. *)
Definition handlePasswordChangeRequired (error : Rejection) : bool * list Navigation :=
  if isPasswordChangeRequired error then
    (true, [ {| to := "/force-change-password"; replace := true |} ])
  else (false, []).

(** The state of the [useAuth] hook and of [DashboardRouter]. *)
Record AuthState := mkAuthState {
  user : option string;
  loading : bool
}.

(** [checkAuth] of [useAuth] and of [DashboardRouter]; [me] is how
    [api.get('/api/auth/me')] settled. *)
Definition checkAuth (me : Rejection + string) (st : AuthState)
    : AuthState * list Navigation :=
  match me with
  | inr data => ({| user := Some data; loading := false |}, [])
  | inl error =>
      let st' := {| user := user st; loading := false |} in
      match handlePasswordChangeRequired error with
      | (true, navs) => (st', navs)
      | (false, navs) => (st', navs ++ [ {| to := "/login"; replace := false |} ])
      end
  end.

(** [checkAuthAndRedirect] of [RedirectRoute]. *)
Definition checkAuthAndRedirect (me : Rejection + string) : list Navigation :=
  match me with
  | inr _ => [ {| to := "/dashboard"; replace := true |} ]
  | inl error =>
      match handlePasswordChangeRequired error with
      | (true, navs) => navs
      | (false, navs) => navs ++ [ {| to := "/login"; replace := true |} ]
      end
  end.

(** A value parsed from a JSON body, as far as [||] tells values apart:
    [undefined] (an absent property), [null], a boolean, a number, a string,
    and an array or object kept as its text.  The falsy ones are
    [undefined], [null], [false], [0] and the empty string; a number that is
    not an integer is truthy like any other non-zero one and is not
    represented separately. *)
Inductive Value :=
| Undefined
| Null
| Boolean (b : bool)
| Number (n : Z)
| Str (s : string)
| Structured (json : string).

Definition truthy (v : Value) : bool :=
  match v with
  | Undefined | Null => false
  | Boolean b => b
  | Number n => negb (Z.eqb n 0)
  | Str s => negb (bool_decide (s = ""))
  | Structured _ => true
  end.

(** [a || b]. *)
Definition or_else (a b : Value) : Value := if truthy a then a else b.

(** The response to a sign-in and the axios error it arrives in, with the
    whole of [data.detail]: the server sends a string with an HTTP error and
    a list of objects when the body fails validation. *)
Record SignInResponse := mkSignInResponse {
  signin_status : Z;
  signin_detail : Value
}.

Record SignInError := mkSignInError {
  signin_config : Config;
  signin_message : string;
  signin_response : option SignInResponse
}.

(** The same error as the interceptor reads it: the interceptor looks at
    [config], at the status and, for status 402 only, at a [detail], which
    [Response] keeps when it is a string. *)
Definition as_axios (error : SignInError) : AxiosError :=
  {| config := signin_config error;
     message := signin_message error;
     response :=
       match signin_response error with
       | Some r =>
           Some {| status := signin_status r;
                   detail := match signin_detail r with
                             | Str d => Some d
                             | _ => None
                             end |}
       | None => None
       end |}.

(** How [await api.post(...)] of the sign-in settles for the page: with the
    response, with the custom error of status 402 (which has no [response]),
    or with the axios error itself, handed on by [Promise.reject(error)]. *)
Inductive Posted :=
| SignedIn
| Enterprise
| PassedOn (error : SignInError).

(** The rejection handler applied to a failed sign-in; [None] when the
    handler does not reject at once. *)
Definition intercept (st : Client) (error : SignInError) : Client * option Posted :=
  match onRejected st (as_axios error) with
  | (st', Rejected (EnterpriseError _ _)) => (st', Some Enterprise)
  | (st', Rejected (Plain _)) => (st', Some (PassedOn error))
  | (st', _) => (st', None)
  end.

(** The sign-in form of the login page. *)
Record LoginState := mkLoginState {
  isAdminLoading : bool;
  adminError : Value
}.

(** The request [handleAdminSignIn] makes. *)
Definition login_url : string := "/api/auth/admin/login".

Definition invalidCredentials : Value := Str "Invalid email or password".

(** [error.response?.data?.detail] in the [catch] block. *)
Definition detail_of (posted : Posted) : Value :=
  match posted with
  | PassedOn error =>
      match signin_response error with
      | Some r => signin_detail r
      | None => Undefined
      end
  | _ => Undefined
  end.

(** [handleAdminSignIn]; [posted] is how the sign-in request settled. *)
Definition handleAdminSignIn (posted : Posted) : LoginState * list Navigation :=
  match posted with
  | SignedIn =>
      ({| isAdminLoading := false; adminError := Str "" |},
       [ {| to := "/dashboard"; replace := false |} ])
  | _ =>
      ({| isAdminLoading := false;
          adminError := or_else (detail_of posted) invalidCredentials |},
       [])
  end.

End AuthUtils.

Module Scopes.

Import PasswordValidation.

(** The code units [String.prototype.trim] strips: the WhiteSpace and
    LineTerminator productions of ECMAScript (tab, line feed, vertical tab,
    form feed, carriage return, space, no-break space, the space separators
    of Unicode, line and paragraph separator, and the byte order mark). *)
Definition whitespace : list N :=
  [ 9; 10; 11; 12; 13; 32; 160; 5760;
    8192; 8193; 8194; 8195; 8196; 8197; 8198; 8199; 8200; 8201; 8202;
    8232; 8233; 8239; 8287; 12288; 65279 ]%N.

Definition is_whitespace (u : N) : bool := existsb (N.eqb u) whitespace.

Fixpoint trimStart (s : jsstring) : jsstring :=
  match s with
  | [] => []
  | u :: rest => if is_whitespace u then trimStart rest else s
  end.

Definition trimEnd (s : jsstring) : jsstring := rev (trimStart (rev s)).

(** [s.trim()]. *)
Definition trim (s : jsstring) : jsstring := trimEnd (trimStart s).

(** [s.split(sep)] for a one-unit separator; the empty string splits into
    one empty piece. *)
Fixpoint split_on (sep : N) (s : jsstring) : list jsstring :=
  match s with
  | [] => [ [] ]
  | u :: rest =>
      if N.eqb u sep then [] :: split_on sep rest
      else match split_on sep rest with
           | piece :: pieces => (u :: piece) :: pieces
           | [] => [ [u] ]
           end
  end.

(** [pieces.join(sep)]. *)
Fixpoint join_with (sep : jsstring) (pieces : list jsstring) : jsstring :=
  match pieces with
  | [] => []
  | [ piece ] => piece
  | piece :: rest => piece ++ sep ++ join_with sep rest
  end.

Definition comma : N := 44%N.

(** [oauthForm.scopes.split(',').map(s => s.trim()).filter(s => s)] of the
    two provider handlers. *)
Definition split_scopes (scopes : jsstring) : list jsstring :=
  List.filter (fun piece => negb (falsy piece)) (map trim (split_on comma scopes)).

(** [provider.scopes.join(', ')] of [startEditingProvider]. *)
Definition join_scopes (scopes : list jsstring) : jsstring :=
  join_with [ comma; 32%N ] scopes.

End Scopes.

Module ResetForm.

Import PasswordValidation.

(** [validatePasswordForm] of the forgot-password page: the verdict and the
    error it sets. *)
Definition validatePasswordForm (token newPassword confirmPassword : jsstring)
    : bool * option string :=
  if falsy token || falsy newPassword || falsy confirmPassword then
    (false, Some "All fields are required")
  else if negb (bool_decide (newPassword = confirmPassword)) then
    (false, Some "Passwords do not match")
  else if Nat.ltb (length newPassword) 8 then
    (false, Some "Password must be at least 8 characters long")
  else (true, None).

(** [handleResetPassword]: the error shown, whether the success view is
    reached, and the [(token, new_password)] pairs posted.  [post] tells how
    [api.post('/api/auth/reset-password', ...)] settles. *)
Definition handleResetPassword (post : jsstring -> jsstring -> PostOutcome)
    (token newPassword confirmPassword : jsstring)
    : option string * bool * list (jsstring * jsstring) :=
  match validatePasswordForm token newPassword confirmPassword with
  | (false, e) => (e, false, [])
  | (true, _) =>
      match post token newPassword with
      | PostResolved => (None, true, [ (token, newPassword) ])
      | PostRejected d =>
          (Some (match d with
                 | Some m => if decide (m = "") then "Failed to reset password" else m
                 | None => "Failed to reset password"
                 end),
           false, [ (token, newPassword) ])
      end
  end.

End ResetForm.

Module AdminDashboard.

Record ConfiguredServer := mkConfiguredServer {
  server_id : string;
  display_name : string;
  is_enabled : bool;
  has_credentials : bool
}.

Record CatalogServer := mkCatalogServer {
  id : string;
  name : string;
  category : string
}.

(** [availableServers]: the catalog entries no configured server refers
    to. *)
Definition availableServers (catalogServers : list CatalogServer)
    (configuredServers : list ConfiguredServer) : list CatalogServer :=
  List.filter
    (fun catalogServer =>
       negb (existsb (fun configured =>
                        bool_decide (server_id configured = id catalogServer))
                     configuredServers))
    catalogServers.

(** [handleRemoveServer(serverId)]; [confirmed] is the answer to the
    confirmation dialog and [delete_ok] tells whether [api.delete]
    resolved. *)
Definition handleRemoveServer (confirmed delete_ok : bool) (serverId : string)
    (configuredServers : list ConfiguredServer) : list ConfiguredServer :=
  if confirmed then
    if delete_ok then
      List.filter (fun s => negb (bool_decide (server_id s = serverId))) configuredServers
    else configuredServers
  else configuredServers.

(** [toggleServerEnabled(serverId, currentEnabled)]. *)
Definition toggleServerEnabled (put_ok : bool) (serverId : string) (currentEnabled : bool)
    (configuredServers : list ConfiguredServer) : list ConfiguredServer :=
  if put_ok then
    map (fun server =>
           if decide (server_id server = serverId)
           then {| server_id := server_id server;
                   display_name := display_name server;
                   is_enabled := negb currentEnabled;
                   has_credentials := has_credentials server |}
           else server)
        configuredServers
  else configuredServers.

End AdminDashboard.

Module Dashboard.

(** A server of [mcpServers] as the user dashboard holds it. *)
Record Server := mkServer {
  id : string;
  name : string;
  is_authorized : bool;
  is_enabled : bool;
  authorized_at : option string;
  requires_auth : bool
}.

(** [handleToggleEnabled(serverId, currentEnabled)]. *)
Definition handleToggleEnabled (put_ok : bool) (serverId : string) (currentEnabled : bool)
    (mcpServers : list Server) : list Server :=
  if put_ok then
    map (fun server =>
           if decide (id server = serverId)
           then {| id := id server; name := name server;
                   is_authorized := is_authorized server;
                   is_enabled := negb currentEnabled;
                   authorized_at := authorized_at server;
                   requires_auth := requires_auth server |}
           else server)
        mcpServers
  else mcpServers.

(** [handleDisconnect(serverId)]. *)
Definition handleDisconnect (delete_ok : bool) (serverId : string)
    (mcpServers : list Server) : list Server :=
  if delete_ok then
    map (fun server =>
           if decide (id server = serverId)
           then {| id := id server; name := name server;
                   is_authorized := false;
                   is_enabled := is_enabled server;
                   authorized_at := None;
                   requires_auth := requires_auth server |}
           else server)
        mcpServers
  else mcpServers.

(** What [handleConnect(server)] does: start the authorization of the
    server, or show the placeholder alert. *)
Inductive Connect :=
| Authorize (serverId : string)
| Alert (serverName : string).

Definition handleConnect (server : Server) : Connect :=
  if negb (is_authorized server) && requires_auth server
  then Authorize (id server)
  else Alert (name server).

End Dashboard.

Module Sidebar.

Import PasswordValidation.

(** The name shown in the sidebar footer: [user?.name] cut to twelve code
    units with an ellipsis, or "User". *)
Definition shown_name (name : option jsstring) : jsstring :=
  match name with
  | Some n =>
      if falsy n then units "User"
      else if Nat.ltb 12 (length n) then firstn 12 n ++ units "..."
      else n
  | None => units "User"
  end.

(** The e-mail address shown below it: cut to fifteen code units, or
    empty. *)
Definition shown_email (email : option jsstring) : jsstring :=
  match email with
  | Some e =>
      if falsy e then []
      else if Nat.ltb 15 (length e) then firstn 15 e ++ units "..."
      else e
  | None => []
  end.

End Sidebar.

Module Toasts.

Record Toast := mkToast {
  id : string;
  type : string;
  message : string;
  duration : option nat
}.

(** [addToast(toast)] with [id] the identifier drawn for it: the toast is
    appended under that identifier. *)
Definition addToast (drawn : string) (toast : Toast) (prev : list Toast) : list Toast :=
  prev ++ [ {| id := drawn; type := type toast; message := message toast;
               duration := duration toast |} ].

(** [removeToast(id)], which is also what the dismissal timer runs. *)
Definition removeToast (dismissed : string) (prev : list Toast) : list Toast :=
  List.filter (fun t => negb (bool_decide (id t = dismissed))) prev.

End Toasts.

Module AddServer.

Import ToolGroups.

(** An entry of [server.auth_fields]. *)
Record AuthField := mkAuthField {
  name : string;
  label : string;
  required : bool
}.

(** [handleInputChange(fieldName, value)]. *)
Definition handleInputChange (fieldName value : string) (prev : gmap string string)
    : gmap string string :=
  <[fieldName := value]> prev.

(** Whether [credentials[field.name]] is truthy: an own property is, unless
    it is the empty string; a name never typed is read through the
    prototype. *)
Definition filled (credentials : gmap string string) (fieldName : string) : bool :=
  match credentials !! fieldName with
  | Some value => negb (bool_decide (value = ""))
  | None => bool_decide (fieldName ∈ objectPrototypeKeys)
  end.

(** [missingFields]. *)
Definition missingFields (auth_fields : list AuthField) (credentials : gmap string string)
    : list string :=
  map label (List.filter (fun field => required field && negb (filled credentials (name field)))
                         auth_fields).

(** [labels.join(', ')]. *)
Fixpoint join_labels (labels : list string) : string :=
  match labels with
  | [] => ""
  | [ l ] => l
  | l :: rest => l +:+ ", " +:+ join_labels rest
  end.

(** What [handleSubmit] does before it awaits: show which fields are
    missing, or post the credentials. *)
Inductive Submitted :=
| Refused (error : string)
| Posted (credentials : gmap string string).

Definition handleSubmit (auth_fields : list AuthField) (credentials : gmap string string)
    : Submitted :=
  match missingFields auth_fields credentials with
  | [] => Posted credentials
  | missing => Refused ("Please fill in: " +:+ join_labels missing)
  end.

End AddServer.

(** ** Sample data used to exercise the statements below *)

(** A page with one user selected and two GitHub tools on display, the
    second switched off for the organisation. *)
Definition sample_tool (name : string) (org : bool) (o : option bool) (e : bool)
    : AdminUsers.Tool :=
  {| AdminUsers.tool_id := name;
     AdminUsers.display_name := name;
     AdminUsers.category := "Issues";
     AdminUsers.is_dangerous := false;
     AdminUsers.readonly := false;
     AdminUsers.org_enabled := org;
     AdminUsers.user_override := o;
     AdminUsers.effective_access := e |}.

Definition sample_page : AdminUsers.Page :=
  {| AdminUsers.selectedUser := Some "a@b.com";
     AdminUsers.userTools :=
       [ sample_tool "create_issue" true None true;
         sample_tool "delete_repo" false (Some true) false ] |}.

(** Two requests, a 401 and a 402 reply, a network that answers every
    request with 401 and lets every refresh succeed, and an interleaving in
    which the second request fails while the refresh started by the first is
    still in flight. *)
Definition request_a : Api.Config :=
  {| Api.url := Some "/api/servers/me"; Api._retry := false |}.

Definition request_b : Api.Config :=
  {| Api.url := Some "/api/admin/users"; Api._retry := false |}.

Definition unauthorized : Api.Reply :=
  Api.Failure "Request failed with status code 401"
    (Some {| Api.status := 401; Api.detail := None |}).

Definition payment_required : Api.AxiosError :=
  {| Api.config := request_b;
     Api.message := "Request failed with status code 402";
     Api.response := Some {| Api.status := 402;
                             Api.detail := Some "Enterprise Edition only" |} |}.

Definition always_unauthorized : Api.Network :=
  {| Api.serve := fun _ _ => unauthorized; Api.refresh := fun _ => None |}.

Definition overlapping_requests : list Api.Input :=
  [ Api.Call request_a; Api.Call request_b;
    Api.Answer request_a unauthorized;
    Api.Answer request_b unauthorized;
    Api.RefreshDone None;
    Api.Answer request_b unauthorized;
    Api.RefreshDone None ].

(** A password form that validates, and the account it is submitted for,
    with the identity standing in for the password hash. *)
Definition sample_hash (password : PasswordValidation.jsstring) : string :=
  String.string_of_list_ascii (map Ascii.ascii_of_N password).

Definition sample_form : PasswordValidation.FormData :=
  {| PasswordValidation.oldPassword := PasswordValidation.units "Temp#4821";
     PasswordValidation.newPassword := PasswordValidation.units "correct horse";
     PasswordValidation.confirmPassword := PasswordValidation.units "correct horse" |}.

Definition sample_user : CredentialManager.User :=
  {| CredentialManager.email := "a@b.com";
     CredentialManager.role := "user";
     CredentialManager.password_hash := Some "Temp#4821";
     CredentialManager.must_change_password := true;
     CredentialManager.password_expires_at := Some 86400%Z |}.

Definition sample_accounts : CredentialManager.Accounts :=
  {| CredentialManager.users := [ sample_user ];
     CredentialManager.reset_tokens := [] |}.

(** A stored GitHub configuration in a vault that reverses strings. *)
Definition sample_encrypt (s : string) : string := String.rev s.





(** A token table with one live token of another user. *)
Definition sample_tokens : list TokenManager.MCPAccessToken :=
  [ {| TokenManager.id := 1; TokenManager.user_id := "c@d.com";
       TokenManager.token_hash := "h:zzz"; TokenManager.token_name := "cursor";
       TokenManager.created_at := 5%Z; TokenManager.revoked_at := None |} ].

Definition sample_token_hash (token : string) : string := "h:" +:+ token.

(** One configured server, and a callback that presents a state token
    nobody was given. *)
Definition sample_resolve (server : string) : option FlowEngine.ProviderConfig :=
  if decide (server = "github-mcp") then
    Some {| FlowEngine.auth_url := "https://github.com/login/oauth/authorize";
            FlowEngine.client_id := "Iv1.8a61f9b3a7aba766";
            FlowEngine.redirect_uri := "https://gw.example/servers/github-mcp/auth-callback";
            FlowEngine.scopes := [ "repo" ] |}
  else None.

Definition sample_authorize_url (cfg : FlowEngine.ProviderConfig) (state : string)
    : string :=
  FlowEngine.auth_url cfg +:+ "?client_id=" +:+ FlowEngine.client_id cfg
    +:+ "&state=" +:+ state.

Definition sample_exchange (code : string) : string + FlowEngine.Tokens :=
  inr {| FlowEngine.issued_access_token := "gho_" +:+ code;
         FlowEngine.issued_refresh_token := None;
         FlowEngine.issued_expires_at := None |}.

Definition sample_calls : list FlowEngine.Call :=
  [ FlowEngine.Begin "a@b.com" "github-mcp" "st-1" 0 ].

Definition forged_callback : FlowEngine.Callback :=
  {| FlowEngine.cb_server := "github-mcp";
     FlowEngine.cb_code := "c0de";
     FlowEngine.cb_state := Some "forged";
     FlowEngine.cb_error := None |}.

(** Tools of one server as fetched for the settings modal, and a tool whose
    category is the name of an inherited property. *)
Definition sample_server_tools : list ToolPermissions.ServerTool :=
  [ {| ToolPermissions.name := "create_issue";
       ToolPermissions.tool_display_name := "Create issue";
       ToolPermissions.description := "";
       ToolPermissions.is_enabled := None |};
    {| ToolPermissions.name := "delete_repo";
       ToolPermissions.tool_display_name := "Delete repository";
       ToolPermissions.description := "";
       ToolPermissions.is_enabled := Some false |} ].

Definition odd_category_tool : AdminUsers.Tool :=
  {| AdminUsers.tool_id := "t1";
     AdminUsers.display_name := "t1";
     AdminUsers.category := "constructor";
     AdminUsers.is_dangerous := false;
     AdminUsers.readonly := false;
     AdminUsers.org_enabled := true;
     AdminUsers.user_override := None;
     AdminUsers.effective_access := true |}.

(** A sign-out request addressed with host and query string, and the
    answer that asks for a password change. *)
Definition absolute_logout : Api.Config :=
  {| Api.url := Some "https://gw.example/api/auth/logout?all=1"; Api._retry := false |}.

(** The session check, a network that answers every request with 401 and
    the refresh with the demand for a new password, and a sign-in whose body
    failed validation. *)
Definition session_check : Api.Config :=
  {| Api.url := Some "/api/auth/me"; Api._retry := false |}.

Definition refresh_demands_password_change : Api.Network :=
  {| Api.serve := fun _ _ => unauthorized;
     Api.refresh := fun _ =>
       Some {| Api.config := {| Api.url := Some "/api/auth/refresh"; Api._retry := false |};
               Api.message := "Request failed with status code 403";
               Api.response := Some {| Api.status := 403;
                                       Api.detail := Some "PASSWORD_CHANGE_REQUIRED" |} |} |}.

Definition invalid_sign_in : AuthUtils.SignInError :=
  {| AuthUtils.signin_config :=
       {| Api.url := Some AuthUtils.login_url; Api._retry := false |};
     AuthUtils.signin_message := "Request failed with status code 422";
     AuthUtils.signin_response :=
       Some {| AuthUtils.signin_status := 422;
               AuthUtils.signin_detail :=
                 AuthUtils.Structured "[{'loc':['body','email'],'msg':'field required'}]" |} |}.

Definition password_change_required : Api.AxiosError :=
  {| Api.config := {| Api.url := Some "/api/auth/me"; Api._retry := false |};
     Api.message := "Request failed with status code 403";
     Api.response := Some {| Api.status := 403;
                             Api.detail := Some "PASSWORD_CHANGE_REQUIRED" |} |}.

(** A catalog of two servers of which one is configured, and the user's
    view of an authorized server. *)
Definition sample_catalog : list AdminDashboard.CatalogServer :=
  [ {| AdminDashboard.id := "github-mcp"; AdminDashboard.name := "GitHub";
       AdminDashboard.category := "Development" |};
    {| AdminDashboard.id := "slack-mcp"; AdminDashboard.name := "Slack";
       AdminDashboard.category := "Communication" |} ].

Definition sample_configured : list AdminDashboard.ConfiguredServer :=
  [ {| AdminDashboard.server_id := "github-mcp";
       AdminDashboard.display_name := "GitHub";
       AdminDashboard.is_enabled := true;
       AdminDashboard.has_credentials := true |} ].

Definition sample_server : Dashboard.Server :=
  {| Dashboard.id := "github-mcp"; Dashboard.name := "GitHub";
     Dashboard.is_authorized := true; Dashboard.is_enabled := true;
     Dashboard.authorized_at := Some "2025-01-01T00:00:00Z";
     Dashboard.requires_auth := true |}.

Definition sample_fields : list AddServer.AuthField :=
  [ {| AddServer.name := "client_id"; AddServer.label := "Client ID";
       AddServer.required := true |};
    {| AddServer.name := "client_secret"; AddServer.label := "Client Secret";
       AddServer.required := true |};
    {| AddServer.name := "tenant"; AddServer.label := "Tenant";
       AddServer.required := false |} ].

Section PermissionFacts.

Import AdminUsers.

Lemma toggle_row_hit toolId cur tool :
  tool_id tool = toolId ->
  toggle_row toolId cur tool =
    with_access tool (Some (negb cur)) (org_enabled tool && negb cur).
Proof.
  intros Hid. unfold toggle_row. rewrite decide_True by exact Hid.
  destruct (org_enabled tool); reflexivity.
Qed.

Lemma toggle_row_miss toolId cur tool :
  tool_id tool <> toolId -> toggle_row toolId cur tool = tool.
Proof. intros Hid. unfold toggle_row. now rewrite decide_False. Qed.

Lemma reset_row_hit toolId tool :
  tool_id tool = toolId ->
  reset_row toolId tool = with_access tool None (org_enabled tool).
Proof. intros Hid. unfold reset_row. now rewrite decide_True. Qed.

Lemma reset_row_miss toolId tool :
  tool_id tool <> toolId -> reset_row toolId tool = tool.
Proof. intros Hid. unfold reset_row. now rewrite decide_False. Qed.

Lemma toggle_row_coherent toolId cur tool :
  coherent tool -> coherent (toggle_row toolId cur tool).
Proof.
  intros Hc. unfold toggle_row. case_decide; [|exact Hc].
  unfold coherent, effectiveAccess_spec; simpl.
  destruct (org_enabled tool); reflexivity.
Qed.

Lemma reset_row_coherent toolId tool :
  coherent tool -> coherent (reset_row toolId tool).
Proof.
  intros Hc. unfold reset_row. case_decide; [|exact Hc].
  unfold coherent, effectiveAccess_spec; simpl.
  destruct (org_enabled tool); reflexivity.
Qed.

Lemma toggleUserTool_coherent ok toolId cur p :
  Forall coherent (userTools p) ->
  Forall coherent (userTools (toggleUserTool ok toolId cur p)).
Proof.
  intros Hall. unfold toggleUserTool.
  destruct (selectedUser p); [|exact Hall].
  destruct ok; [|exact Hall]. simpl.
  induction Hall as [|t ts Ht _ IH]; simpl; constructor.
  - now apply toggle_row_coherent.
  - exact IH.
Qed.

Lemma removeUserOverride_coherent ok toolId p :
  Forall coherent (userTools p) ->
  Forall coherent (userTools (removeUserOverride ok toolId p)).
Proof.
  intros Hall. unfold removeUserOverride.
  destruct (selectedUser p); [|exact Hall].
  destruct ok; [|exact Hall]. simpl.
  induction Hall as [|t ts Ht _ IH]; simpl; constructor.
  - now apply reset_row_coherent.
  - exact IH.
Qed.

(** Both pages lock the switch of a tool the organisation has switched off,
    and flipping an unlocked switch stores the opposite of what it showed. *)
Lemma switch_locks_org_disabled tool :
  org_enabled tool = false ->
  switch_disabled tool = true /\ Admin.switch_disabled tool = true.
Proof.
  intros Hoff. unfold switch_disabled, Admin.switch_disabled.
  now rewrite Hoff.
Qed.

Lemma onCheckedChange_flips u p i tool :
  selectedUser p = Some u ->
  userTools p !! i = Some tool ->
  user_override <$> (userTools (onCheckedChange true tool p) !! i) =
    Some (Some (negb (switch_checked tool))).
Proof.
  intros Hu Hi. unfold onCheckedChange, toggleUserTool. rewrite Hu.
  cbn [userTools]. rewrite list_lookup_fmap, Hi. cbn [fmap option_fmap option_map].
  now rewrite toggle_row_hit.
Qed.

End PermissionFacts.

(** C1: for every row the two handlers touch, the access flag they write is
    the specified decision for the row's organisation flag and new override
    (false when the organisation flag is off, else the override when there is
    one, else true); a row whose organisation flag is off shows no access
    even when its override has just been set to enabled; for a tool the
    organisation allows, the switch of either admin page shows that same
    decision; and rows that were coherent stay coherent. *)
Theorem effective_access_decision :
  forall (u toolId : string) (cur : bool) (p : AdminUsers.Page) (i : nat)
         (tool : AdminUsers.Tool),
    AdminUsers.selectedUser p = Some u ->
    AdminUsers.userTools p !! i = Some tool ->
    AdminUsers.tool_id tool = toolId ->
    AdminUsers.userTools (AdminUsers.toggleUserTool true toolId cur p) !! i =
      Some (AdminUsers.with_access tool (Some (negb cur))
              (AdminUsers.effectiveAccess_spec (AdminUsers.org_enabled tool)
                 (Some (negb cur))))
    /\ AdminUsers.userTools (AdminUsers.removeUserOverride true toolId p) !! i =
      Some (AdminUsers.with_access tool None
              (AdminUsers.effectiveAccess_spec (AdminUsers.org_enabled tool) None))
    /\ (AdminUsers.org_enabled tool = false ->
        AdminUsers.effective_access <$>
          (AdminUsers.userTools (AdminUsers.toggleUserTool true toolId false p) !! i)
        = Some false)
    /\ (AdminUsers.org_enabled tool = true ->
        Admin.switch_checked tool =
          AdminUsers.effectiveAccess_spec (AdminUsers.org_enabled tool)
            (AdminUsers.user_override tool)
        /\ AdminUsers.switch_checked tool = Admin.switch_checked tool)
    /\ (Forall AdminUsers.coherent (AdminUsers.userTools p) ->
        forall ok,
          Forall AdminUsers.coherent
            (AdminUsers.userTools (AdminUsers.toggleUserTool ok toolId cur p))
          /\ Forall AdminUsers.coherent
               (AdminUsers.userTools (AdminUsers.removeUserOverride ok toolId p))).
Proof.
  intros u toolId cur p i tool Hu Hi Hid.
  unfold AdminUsers.toggleUserTool, AdminUsers.removeUserOverride.
  rewrite Hu. cbn [AdminUsers.userTools].
  rewrite !list_lookup_fmap, Hi. cbn [fmap option_fmap option_map].
  rewrite !toggle_row_hit, reset_row_hit by exact Hid.
  split; [|split; [|split; [|split]]].
  - unfold AdminUsers.effectiveAccess_spec.
    destruct (AdminUsers.org_enabled tool); reflexivity.
  - unfold AdminUsers.effectiveAccess_spec.
    destruct (AdminUsers.org_enabled tool); reflexivity.
  - intros Hoff. cbn. now rewrite Hoff.
  - intros Hon.
    unfold Admin.switch_checked, AdminUsers.switch_checked,
      AdminUsers.effectiveAccess_spec, AdminUsers.nullish.
    rewrite Hon. destruct (AdminUsers.user_override tool); split; reflexivity.
  - intros Hall ok. split.
    + pose proof (toggleUserTool_coherent ok toolId cur p Hall) as Ht.
      unfold AdminUsers.toggleUserTool in Ht. now rewrite Hu in Ht.
    + pose proof (removeUserOverride_coherent ok toolId p Hall) as Ht.
      unfold AdminUsers.removeUserOverride in Ht. now rewrite Hu in Ht.
Qed.

Lemma effective_access_decision_witness :
  AdminUsers.userTools
    (AdminUsers.toggleUserTool true "delete_repo" false sample_page) !! 1%nat =
    Some (sample_tool "delete_repo" false (Some true) false)
  /\ AdminUsers.userTools
       (AdminUsers.removeUserOverride true "delete_repo" sample_page) !! 1%nat =
     Some (sample_tool "delete_repo" false None false).
Proof.
  pose proof (effective_access_decision "a@b.com" "delete_repo" false sample_page 1
                (sample_tool "delete_repo" false (Some true) false)
                eq_refl eq_refl eq_refl) as (Ht & Hr & _).
  split; [exact Ht | exact Hr].
Defined.

(** C3: removing the override of a tool rewrites its row to "no override"
    with the access flag equal to the organisation flag, and the rewritten
    row is the same whatever override and access flag the row carried
    before. *)
Theorem clearing_override_reverts_to_org_default :
  forall (u toolId : string) (p : AdminUsers.Page) (i : nat) (tool : AdminUsers.Tool),
    AdminUsers.selectedUser p = Some u ->
    AdminUsers.userTools p !! i = Some tool ->
    AdminUsers.tool_id tool = toolId ->
    AdminUsers.userTools (AdminUsers.removeUserOverride true toolId p) !! i =
      Some (AdminUsers.with_access tool None (AdminUsers.org_enabled tool))
    /\ (forall (o : option bool) (e : bool),
          AdminUsers.reset_row toolId (AdminUsers.with_access tool o e) =
          AdminUsers.reset_row toolId tool).
Proof.
  intros u toolId p i tool Hu Hi Hid. split.
  - unfold AdminUsers.removeUserOverride. rewrite Hu.
    cbn [AdminUsers.userTools].
    rewrite list_lookup_fmap, Hi. cbn [fmap option_fmap option_map].
    now rewrite reset_row_hit.
  - intros o e. rewrite !reset_row_hit; [reflexivity | exact Hid | exact Hid].
Qed.

Lemma clearing_override_reverts_to_org_default_witness :
  AdminUsers.userTools
    (AdminUsers.removeUserOverride true "create_issue"
       {| AdminUsers.selectedUser := Some "a@b.com";
          AdminUsers.userTools := [ sample_tool "create_issue" true (Some false) false ] |})
    !! 0%nat
  = Some (sample_tool "create_issue" true None true).
Proof.
  exact (proj1 (clearing_override_reverts_to_org_default "a@b.com" "create_issue"
                  {| AdminUsers.selectedUser := Some "a@b.com";
                     AdminUsers.userTools :=
                       [ sample_tool "create_issue" true (Some false) false ] |}
                  0 (sample_tool "create_issue" true (Some false) false)
                  eq_refl eq_refl eq_refl)).
Defined.

(** ** Facts about the rejection handler *)

Section ApiFacts.

Import Api.

Lemma onRejected_402 st error :
  status_is error 402 = true ->
  onRejected st error = (st, Rejected (EnterpriseError (errorMessage error) error)).
Proof. intros H. unfold onRejected. now rewrite H. Qed.

Lemma onRejected_not_refreshable st error :
  status_is error 402 = false ->
  status_is error 401 && negb (_retry (config error))
    && negb (shouldSkipRefresh (config error)) = false ->
  onRejected st error = (st, Rejected (Plain error)).
Proof. intros H2 H1. unfold onRejected. now rewrite H2, H1. Qed.

Lemma onRejected_starts_refresh st error :
  status_is error 402 = false ->
  status_is error 401 && negb (_retry (config error))
    && negb (shouldSkipRefresh (config error)) = true ->
  isRefreshing st = false ->
  onRejected st error =
    ({| isRefreshing := true; refreshSubscribers := refreshSubscribers st |},
     AwaitingRefresh (mark_retry (config error))).
Proof. intros H2 H1 Hr. unfold onRejected. now rewrite H2, H1, Hr. Qed.

Lemma errorMessage_nonempty error : errorMessage error <> "".
Proof.
  unfold errorMessage.
  destruct (response error) as [r|]; [|discriminate].
  destruct (detail r) as [d|]; [|discriminate].
  case_decide; [discriminate | assumption].
Qed.

Lemma onRejected_final st error :
  _retry (config error) = true \/ shouldSkipRefresh (config error) = true ->
  exists r, onRejected st error = (st, Rejected r)
            /\ isEnterpriseFeature r = status_is error 402.
Proof.
  intros Hfinal.
  destruct (status_is error 402) eqn:H2.
  - eexists. split; [now apply onRejected_402 | reflexivity].
  - exists (Plain error). split; [|simpl; now rewrite H2].
    apply onRejected_not_refreshable; [exact H2|].
    destruct Hfinal as [-> | ->]; simpl;
      [now rewrite andb_false_r | now rewrite andb_false_r].
Qed.

Lemma onRejected_rejection st error st' r :
  onRejected st error = (st', Rejected r) ->
  st' = st /\ isEnterpriseFeature r = status_is error 402.
Proof.
  unfold onRejected. destruct (status_is error 402) eqn:H2.
  - intros [= <- <-]. split; reflexivity.
  - destruct (_ && _ && _).
    + destruct (isRefreshing st); discriminate.
    + intros [= <- <-]. split; [reflexivity | simpl; now rewrite H2].
Qed.

Lemma onRejected_toast st error st' r :
  onRejected st error = (st', Rejected r) ->
  fetchUserTools_catch r =
    if status_is error 402 then ToastInfo (errorMessage error)
    else ToastError "Failed to load user tool permissions".
Proof.
  unfold onRejected. destruct (status_is error 402) eqn:H2.
  - intros [= <- <-]. unfold fetchUserTools_catch. cbn.
    now rewrite decide_False by apply errorMessage_nonempty.
  - destruct (_ && _ && _).
    + destruct (isRefreshing st); discriminate.
    + intros [= <- <-]. unfold fetchUserTools_catch. cbn. now rewrite H2.
Qed.

Lemma status_402_not_401 error :
  status_is error 402 = true -> status_is error 401 = false.
Proof.
  unfold status_is. destruct (response error) as [r|]; [|discriminate].
  intros H%Z.eqb_eq. rewrite H. reflexivity.
Qed.

End ApiFacts.

Ltac count_log :=
  unfold Api.refreshes, Api.sends_to, Api.sent; cbn;
  rewrite ?bool_decide_eq_true_2 by reflexivity; cbn; lia.

(** C9: a response with status 402 is turned, in every client state and for
    every request, into the enterprise error (flag set, non-empty message
    taken from the response detail or the default text) without touching the
    refresh flag or the queue; among everything the handler rejects with, the
    pages' recogniser accepts exactly the rejections that stem from a 402; and
    the request is put on the wire once, with no refresh posted. *)
Theorem enterprise_signal_is_distinct :
  forall (st : Api.Client) (error : Api.AxiosError),
    (Api.status_is error 402 = true ->
       Api.onRejected st error =
         (st, Api.Rejected (Api.EnterpriseError (Api.errorMessage error) error))
       /\ Api.errorMessage error <> ""
       /\ Api.status_is error 401 = false)
    /\ (forall st' r,
          Api.onRejected st error = (st', Api.Rejected r) ->
          Api.isEnterpriseFeature r = Api.status_is error 402)
    /\ (forall st' r,
          Api.onRejected st error = (st', Api.Rejected r) ->
          Api.fetchUserTools_catch r =
            if Api.status_is error 402
            then Api.ToastInfo (Api.errorMessage error)
            else Api.ToastError "Failed to load user tool permissions")
    /\ (forall fuel net log,
          Api.status_is error 402 = true ->
          Api.serve net (log ++ [Api.Send (Api.config error)]) (Api.config error)
            = Api.Failure (Api.message error) (Api.response error) ->
          Api.api (S fuel) net st log (Api.config error) =
            (st, log ++ [Api.Send (Api.config error)],
             Api.Failed (Api.EnterpriseError (Api.errorMessage error) error))).
Proof.
  intros st error. split; [|split; [|split]].
  - intros H. split; [now apply onRejected_402|].
    split; [apply errorMessage_nonempty | now apply status_402_not_401].
  - intros st' r H. now apply onRejected_rejection in H.
  - intros st' r H. now apply onRejected_toast in H.
  - intros fuel net log H Hserve. cbn [Api.api]. rewrite Hserve.
    destruct error as [c msg resp]. cbn [Api.config Api.message Api.response] in *.
    now rewrite onRejected_402.
Qed.

Lemma enterprise_signal_is_distinct_witness :
  Api.onRejected Api.idle payment_required =
    (Api.idle,
     Api.Rejected (Api.EnterpriseError "Enterprise Edition only" payment_required))
  /\ Api.errorMessage payment_required <> ""
  /\ Api.status_is payment_required 401 = false.
Proof.
  exact (proj1 (enterprise_signal_is_distinct Api.idle payment_required) eq_refl).
Defined.

(** C10, as the client implements it: a request issued while nothing else is
    in flight is put on the wire at most twice with at most one refresh in
    between, and its promise settles; the only runs are "sent once", "sent,
    refresh failed, redirected to the login page and rejected with the refresh
    error" and "sent, refreshed, sent again with the retry mark".  In every
    client state a failure of a request that carries the retry mark, or whose
    URL contains one of the three authentication paths, is rejected at once
    with flag and queue untouched, and a failed refresh rejects with the
    refresh error; a handler only waits for a refresh it started itself while
    none was in flight, and what it sends again afterwards is the original
    request with the retry mark set. *)
Theorem single_refresh_single_retry :
  forall (net : Api.Network) (c : Api.Config) (fuel : nat),
    2 <= fuel ->
    (exists log out,
        Api.api fuel net Api.idle [] c = (Api.idle, log, out)
        /\ out <> Api.OutOfFuel /\ out <> Api.NeverSettles
        /\ (log = [Api.Send c]
            \/ (log = [Api.Send c; Api.PostRefresh; Api.Redirect "/login"]
                /\ exists e, Api.refresh net [Api.Send c; Api.PostRefresh] = Some e
                             /\ out = Api.Failed (Api.Plain e))
            \/ (log = [Api.Send c; Api.PostRefresh; Api.Send (Api.mark_retry c)]
                /\ Api._retry c = false /\ Api.shouldSkipRefresh c = false))
        /\ Api.refreshes log <= 1
        /\ Api.sends_to (Api.url c) log <= 2
        /\ length (Api.sent log) <= 2)
    /\ (forall st error,
          Api._retry (Api.config error) = true
          \/ Api.shouldSkipRefresh (Api.config error) = true ->
          exists r, Api.onRejected st error = (st, Api.Rejected r))
    /\ (forall st orig e,
          Api.afterRefresh st orig (Some e) =
            (Api.idle, Api.GiveUp "/login" (Api.Plain e)))
    /\ (forall st error st1 orig,
          Api.onRejected st error = (st1, Api.AwaitingRefresh orig) ->
          Api.isRefreshing st = false
          /\ orig = Api.mark_retry (Api.config error)
          /\ forall st2,
               Api.afterRefresh st2 orig None =
                 (Api.idle, Api.Retry (Api.refreshSubscribers st2) orig)).
Proof.
  intros net c fuel Hfuel. split; [|split; [|split]].
  - destruct fuel as [|[|fuel]]; [lia | lia |]. clear Hfuel.
    cbn [Api.api app].
    destruct (Api.serve net [Api.Send c] c) as [d|msg resp] eqn:Hs1.
    { exists [Api.Send c], (Api.Resolved d).
      split; [reflexivity|]. split; [discriminate|]. split; [discriminate|].
      split; [now left|].
      count_log. }
    set (error := {| Api.config := c; Api.message := msg; Api.response := resp |}).
    destruct (Api.status_is error 402) eqn:H2.
    { rewrite (onRejected_402 _ _ H2).
      eexists [Api.Send c], _. split; [reflexivity|].
      split; [discriminate|]. split; [discriminate|]. split; [now left|].
      count_log. }
    destruct (Api.status_is error 401 && negb (Api._retry (Api.config error))
              && negb (Api.shouldSkipRefresh (Api.config error))) eqn:H1.
    2:{ rewrite (onRejected_not_refreshable _ _ H2 H1).
        eexists [Api.Send c], _. split; [reflexivity|].
        split; [discriminate|]. split; [discriminate|]. split; [now left|].
        count_log. }
    rewrite (onRejected_starts_refresh Api.idle _ H2 H1 eq_refl).
    cbn [Api.config error Api.idle Api.refreshSubscribers].
    apply andb_prop in H1 as [H1 Hskip]. apply andb_prop in H1 as [_ Hmark].
    apply negb_true_iff in Hskip, Hmark. cbn [Api.config error] in Hskip, Hmark.
    destruct (Api.refresh net [Api.Send c; Api.PostRefresh]) as [e|] eqn:Hr.
    { cbn [Api.afterRefresh app].
      eexists _, _. split; [reflexivity|].
      split; [discriminate|]. split; [discriminate|].
      split; [right; left; split; [reflexivity | now exists e]|].
      count_log. }
    cbn [Api.afterRefresh Api.idle Api.refreshSubscribers fold_left Api.api app].
    assert (Hshape : forall out,
      out <> Api.OutOfFuel -> out <> Api.NeverSettles ->
      exists log out',
        (Api.idle, [Api.Send c; Api.PostRefresh; Api.Send (Api.mark_retry c)], out)
          = (Api.idle, log, out')
        /\ out' <> Api.OutOfFuel /\ out' <> Api.NeverSettles
        /\ (log = [Api.Send c]
            \/ (log = [Api.Send c; Api.PostRefresh; Api.Redirect "/login"]
                /\ exists e, None = Some e /\ out' = Api.Failed (Api.Plain e))
            \/ (log = [Api.Send c; Api.PostRefresh; Api.Send (Api.mark_retry c)]
                /\ Api._retry c = false /\ Api.shouldSkipRefresh c = false))
        /\ Api.refreshes log <= 1
        /\ Api.sends_to (Api.url c) log <= 2
        /\ length (Api.sent log) <= 2).
    { intros out Ho1 Ho2. eexists _, out. split; [reflexivity|].
      split; [exact Ho1|]. split; [exact Ho2|].
      split; [right; right; now repeat split|].
      count_log. }
    destruct (Api.serve net _ (Api.mark_retry c)) as [d|msg' resp'].
    { apply Hshape; discriminate. }
    destruct (onRejected_final Api.idle
                {| Api.config := Api.mark_retry c; Api.message := msg';
                   Api.response := resp' |})
      as (r & -> & _); [now left|].
    apply Hshape; discriminate.
  - intros st error Hfinal.
    destruct (onRejected_final st error Hfinal) as (r & Hr & _). now exists r.
  - reflexivity.
  - intros st error st1 orig. unfold Api.onRejected.
    destruct (Api.status_is error 402); [discriminate|].
    destruct (_ && _ && _); [|discriminate].
    destruct (Api.isRefreshing st) eqn:Hr; [discriminate|].
    intros [= <- <-]. repeat split.
Qed.

Lemma single_refresh_single_retry_witness :
  exists log out,
    Api.api 2 always_unauthorized Api.idle [] request_a = (Api.idle, log, out)
    /\ Api.refreshes log <= 1
    /\ Api.sends_to (Api.url request_a) log <= 2.
Proof.
  destruct (proj1 (single_refresh_single_retry always_unauthorized request_a 2 (le_n 2)))
    as (log & out & Hrun & _ & _ & _ & Hr & Hs & _).
  exists log, out. split; [exact Hrun | split; [exact Hr | exact Hs]].
Defined.

(** C10 as stated fails when requests overlap: a request that fails with 401
    while another request's refresh is in flight is queued without the retry
    mark, re-sent when that refresh succeeds, and on a further 401 starts a
    refresh of its own and is re-sent once more.  It was called once and
    went on the wire three times. *)
Lemma queued_request_is_retried_twice :
  exists m,
    Api.run Api.boot overlapping_requests = Some m
    /\ Api.sends_to (Api.url request_b) (Api.effects m) = 3
    /\ Api.refreshes (Api.effects m) = 2
    /\ ~ Api.sends_to (Api.url request_b) (Api.effects m) <= 2.
Proof.
  eexists. split; [vm_compute; reflexivity|].
  split; [vm_compute; reflexivity|].
  split; [vm_compute; reflexivity|].
  vm_compute. lia.
Qed.

(** ** Password change *)

Section PasswordFacts.

Import PasswordValidation.

Lemma falsy_spec s : falsy s = true <-> s = [].
Proof. destruct s; simpl; split; congruence. Qed.

Lemma validatePasswordChange_valid formData :
  isValid (validatePasswordChange formData) = true <->
  oldPassword formData <> [] /\ newPassword formData <> []
  /\ confirmPassword formData <> []
  /\ newPassword formData = confirmPassword formData
  /\ 8 <= length (newPassword formData)
  /\ oldPassword formData <> newPassword formData.
Proof.
  unfold validatePasswordChange.
  destruct (oldPassword formData) as [|o old] eqn:Ho; cbn [falsy orb].
  { cbn. split; [discriminate | intros [[] _]; reflexivity]. }
  destruct (newPassword formData) as [|n new] eqn:Hn; cbn [falsy orb].
  { cbn. split; [discriminate | intros (_ & [] & _); reflexivity]. }
  destruct (confirmPassword formData) as [|k conf] eqn:Hc; cbn [falsy orb].
  { cbn. split; [discriminate | intros (_ & _ & [] & _); reflexivity]. }
  case_bool_decide as Heq; cbn [negb].
  2:{ cbn. split; [discriminate | intros (_ & _ & _ & ? & _); contradiction]. }
  destruct (Nat.ltb_spec (length (n :: new)) 8) as [Hlt|Hge].
  { cbn [isValid]. split; [discriminate | intros (_ & _ & _ & _ & ? & _); lia]. }
  case_bool_decide as Hsame; cbn [isValid].
  { split; [discriminate | intros (_ & _ & _ & _ & _ & ?); contradiction]. }
  split; [|reflexivity]. intros _. repeat split; try discriminate; assumption.
Qed.

Lemma validatePasswordChange_error formData :
  isValid (validatePasswordChange formData) = false ->
  error (validatePasswordChange formData) <> None.
Proof.
  unfold validatePasswordChange.
  repeat (match goal with |- context [if ?b then _ else _] => destruct b end;
          cbn [isValid error]; try discriminate).
Qed.

End PasswordFacts.

(** C8: the form validator accepts only when the new password differs from
    the old one and has at least eight code units, and rejects every other
    input with an error message, in which case the form sends no request;
    the server-side change succeeds only when, in addition, the old password
    is the account's current one, rejects a new password equal to the old one
    or shorter than eight with a validation error, succeeds whenever the
    three conditions hold, and on success clears [must_change_password] and
    [password_expires_at]; the form reports success only when the server-side
    change went through. *)
Theorem password_change_requirements :
  forall (hash : PasswordValidation.jsstring -> string)
         (user : CredentialManager.User)
         (formData : PasswordValidation.FormData),
    (PasswordValidation.isValid (PasswordValidation.validatePasswordChange formData) = true ->
       PasswordValidation.newPassword formData <> PasswordValidation.oldPassword formData
       /\ 8 <= length (PasswordValidation.newPassword formData))
    /\ (PasswordValidation.newPassword formData = PasswordValidation.oldPassword formData
        \/ length (PasswordValidation.newPassword formData) < 8 ->
        PasswordValidation.isValid (PasswordValidation.validatePasswordChange formData) = false
        /\ PasswordValidation.error (PasswordValidation.validatePasswordChange formData) <> None
        /\ forall post1 post2 st,
             PasswordValidation.handleSubmit post1 formData st =
             PasswordValidation.handleSubmit post2 formData st)
    /\ (forall old new user',
          CredentialManager.changePassword hash user old new = inr user' ->
          new <> old /\ 8 <= length new
          /\ CredentialManager.password_hash user = Some (hash old)
          /\ CredentialManager.must_change_password user' = false
          /\ CredentialManager.password_expires_at user' = None)
    /\ (forall old new,
          new = old \/ length new < 8 ->
          CredentialManager.changePassword hash user old new =
            inl CredentialManager.ValidationError)
    /\ (forall old new,
          new <> old -> 8 <= length new ->
          CredentialManager.password_hash user = Some (hash old) ->
          exists user', CredentialManager.changePassword hash user old new = inr user')
    /\ (forall st,
          PasswordValidation.success st = false ->
          PasswordValidation.success
            (PasswordValidation.handleSubmit
               (CredentialManager.change_password_endpoint hash user) formData st) = true ->
          exists user',
            CredentialManager.changePassword hash user
              (PasswordValidation.oldPassword formData)
              (PasswordValidation.newPassword formData) = inr user').
Proof.
  intros hash user formData. split; [|split; [|split; [|split; [|split]]]].
  - intros Hv. apply validatePasswordChange_valid in Hv
      as (_ & _ & _ & _ & Hlen & Hne).
    split; [congruence | exact Hlen].
  - intros Hbad.
    assert (Hinv : PasswordValidation.isValid
                     (PasswordValidation.validatePasswordChange formData) = false).
    { destruct (PasswordValidation.isValid _) eqn:Hv; [|reflexivity].
      apply validatePasswordChange_valid in Hv as (_ & _ & _ & _ & Hlen & Hne).
      destruct Hbad as [Heq | Hshort]; [congruence | lia]. }
    split; [exact Hinv|]. split; [now apply validatePasswordChange_error|].
    intros post1 post2 st. unfold PasswordValidation.handleSubmit.
    now rewrite Hinv.
  - intros old new user'. unfold CredentialManager.changePassword.
    case_bool_decide as Heq; [discriminate|].
    destruct (Nat.ltb_spec (length new) 8) as [Hlt|Hge]; [discriminate|].
    case_bool_decide as Hpw; [|discriminate].
    intros [= <-]. cbn. repeat split; assumption.
  - intros old new Hbad. unfold CredentialManager.changePassword.
    case_bool_decide as Heq; [reflexivity|].
    destruct (Nat.ltb_spec (length new) 8) as [Hlt|Hge]; [reflexivity|].
    destruct Hbad; [contradiction | lia].
  - intros old new Hne Hlen Hpw. unfold CredentialManager.changePassword.
    rewrite bool_decide_eq_false_2 by exact Hne.
    destruct (Nat.ltb_spec (length new) 8) as [Hlt|Hge]; [lia|].
    rewrite bool_decide_eq_true_2 by exact Hpw. eauto.
  - intros st Hst. unfold PasswordValidation.handleSubmit.
    destruct (PasswordValidation.isValid _); cbn [negb];
      [|cbn; congruence].
    unfold CredentialManager.change_password_endpoint.
    destruct (CredentialManager.changePassword hash user _ _) as [err|user'];
      [cbn; congruence | eauto].
Qed.

Lemma password_change_requirements_witness :
  PasswordValidation.newPassword sample_form <> PasswordValidation.oldPassword sample_form
  /\ 8 <= length (PasswordValidation.newPassword sample_form).
Proof.
  exact (proj1 (password_change_requirements sample_hash sample_user sample_form) eq_refl).
Defined.

(** C7: the reply to a reset request is the same accepting reply for every
    address, registered or not, while only a registered address gets a reset
    token (unused, expiring after the configured lifetime); and the page ends
    in the same state whether the request resolved or was rejected, and in
    the same state for any two non-empty addresses. *)
Theorem reset_request_reveals_nothing :
  forall (reset_ttl : Z) (db : CredentialManager.Accounts)
         (known unknown token1 token2 : string) (now : Z),
    existsb (fun u => bool_decide (CredentialManager.email u = known))
            (CredentialManager.users db) = true ->
    existsb (fun u => bool_decide (CredentialManager.email u = unknown))
            (CredentialManager.users db) = false ->
    fst (CredentialManager.requestPasswordReset reset_ttl db known token1 now) =
    fst (CredentialManager.requestPasswordReset reset_ttl db unknown token2 now)
    /\ fst (CredentialManager.requestPasswordReset reset_ttl db known token1 now) =
       CredentialManager.ResetAccepted
    /\ snd (CredentialManager.requestPasswordReset reset_ttl db unknown token2 now) = db
    /\ CredentialManager.reset_tokens
         (snd (CredentialManager.requestPasswordReset reset_ttl db known token1 now)) =
       CredentialManager.reset_tokens db ++
         [ {| CredentialManager.reset_email := known;
              CredentialManager.reset_token := token1;
              CredentialManager.reset_expires_at := now + reset_ttl;
              CredentialManager.reset_used := false |} ]
    /\ (forall st resolved1 resolved2,
          known <> "" -> unknown <> "" ->
          fst (ForgotPassword.handleRequestReset known resolved1 st) =
          fst (ForgotPassword.handleRequestReset unknown resolved2 st)
          /\ fst (ForgotPassword.handleRequestReset known resolved1 st) =
             {| ForgotPassword.step := 2; ForgotPassword.error := None;
                ForgotPassword.loading := false |}).
Proof.
  intros ttl db known unknown token1 token2 now Hk Hu.
  unfold CredentialManager.requestPasswordReset. rewrite Hk, Hu. cbn.
  split; [reflexivity|]. split; [reflexivity|]. split; [reflexivity|].
  split; [reflexivity|].
  intros st r1 r2 Hk' Hu'. unfold ForgotPassword.handleRequestReset.
  rewrite !decide_False by assumption. destruct r1, r2; split; reflexivity.
Qed.

Lemma reset_request_reveals_nothing_witness :
  fst (CredentialManager.requestPasswordReset 3600 sample_accounts "a@b.com" "t1" 0) =
  fst (CredentialManager.requestPasswordReset 3600 sample_accounts "nobody@b.com" "t2" 0).
Proof.
  exact (proj1 (reset_request_reveals_nothing 3600 sample_accounts
                  "a@b.com" "nobody@b.com" "t1" "t2" 0 eq_refl eq_refl)).
Defined.

(** ** Provider credentials *)

Section HintFacts.

Import ProviderRegistry.







End HintFacts.




(** ** Access tokens *)

Section TokenFacts.

Import TokenManager.

Variable hash : string -> string.

Lemma revoke_row_inactive now t : active (revoke_row now t) = false.
Proof. unfold revoke_row, active. destruct (revoked_at t) eqn:H; cbn; now rewrite ?H. Qed.

Lemma revoke_row_user now t : user_id (revoke_row now t) = user_id t.
Proof. unfold revoke_row. now destruct (revoked_at t). Qed.

Lemma revoke_row_hash now t : token_hash (revoke_row now t) = token_hash t.
Proof. unfold revoke_row. now destruct (revoked_at t). Qed.

Lemma revoke_row_active_le now t : active (revoke_row now t) = true -> active t = true.
Proof. now rewrite revoke_row_inactive. Qed.

Lemma active_count_app user l1 l2 :
  active_count user (l1 ++ l2) = active_count user l1 + active_count user l2.
Proof. unfold active_count. now rewrite List.filter_app, length_app. Qed.

Lemma active_count_revoke_user user now rows :
  active_count user
    (map (fun t => if decide (user_id t = user) then revoke_row now t else t) rows) = 0.
Proof.
  unfold active_count. induction rows as [|t rows IH]; [reflexivity|].
  cbn [map List.filter]. case_decide as Hu.
  - rewrite revoke_row_inactive, andb_false_r. exact IH.
  - rewrite bool_decide_eq_false_2 by exact Hu. exact IH.
Qed.

Lemma active_count_revoke_other user other now rows :
  other <> user ->
  active_count other
    (map (fun t => if decide (user_id t = user) then revoke_row now t else t) rows)
  = active_count other rows.
Proof.
  intros Hne. unfold active_count. induction rows as [|t rows IH]; [reflexivity|].
  cbn [map List.filter]. case_decide as Hu.
  - rewrite revoke_row_user.
    rewrite (bool_decide_eq_false_2 (user_id t = other)) by congruence.
    exact IH.
  - destruct (bool_decide (user_id t = other) && active t); cbn; now rewrite IH.
Qed.

Lemma active_count_pointwise_le user (f : MCPAccessToken -> MCPAccessToken) rows :
  (forall t, user_id (f t) = user_id t) ->
  (forall t, active (f t) = true -> active t = true) ->
  active_count user (map f rows) <= active_count user rows.
Proof.
  intros Hu Ha. unfold active_count. induction rows as [|t rows IH]; [reflexivity|].
  cbn [map List.filter]. rewrite Hu.
  destruct (bool_decide (user_id t = user)); cbn [andb]; [|exact IH].
  destruct (active (f t)) eqn:Hf.
  - rewrite (Ha _ Hf). cbn. lia.
  - destruct (active t); cbn; lia.
Qed.

Lemma issue_count_self rows user label token now :
  active_count user (snd (issue hash rows user label token now)) = 1.
Proof.
  cbn [issue snd]. rewrite active_count_app, active_count_revoke_user.
  unfold active_count. cbn. now rewrite bool_decide_eq_true_2.
Qed.

Lemma issue_count_other rows user other label token now :
  other <> user ->
  active_count other (snd (issue hash rows user label token now)) =
  active_count other rows.
Proof.
  intros Hne. cbn [issue snd].
  rewrite active_count_app, active_count_revoke_other by exact Hne.
  unfold active_count. cbn.
  rewrite bool_decide_eq_false_2 by congruence. cbn. lia.
Qed.

Lemma revoke_count_le rows user token now :
  active_count user (revoke rows token now) <= active_count user rows.
Proof.
  unfold revoke. apply active_count_pointwise_le.
  - intros t. case_decide; [apply revoke_row_user | reflexivity].
  - intros t. case_decide; [apply revoke_row_active_le | trivial].
Qed.

Lemma apply_count_le rows op :
  (forall v, active_count v rows <= 1) ->
  forall v, active_count v (apply hash rows op) <= 1.
Proof.
  intros Hinv v. destruct op as [u l tok n | tid n]; cbn [apply].
  - destruct (decide (v = u)) as [-> | Hne].
    + now rewrite issue_count_self.
    + rewrite issue_count_other by exact Hne. apply Hinv.
  - etransitivity; [apply revoke_count_le | apply Hinv].
Qed.

Lemma history_count_le ops rows :
  (forall v, active_count v rows <= 1) ->
  forall v, active_count v (fold_left (apply hash) ops rows) <= 1.
Proof.
  revert rows. induction ops as [|op ops IH]; intros rows Hinv; [exact Hinv|].
  cbn [fold_left]. apply IH. now apply apply_count_le.
Qed.

Lemma dead_only_owner h user rows : dead h rows -> only_owner h user rows.
Proof.
  unfold dead, only_owner. intros H. eapply Forall_impl; [exact H|].
  intros t Hd Hh Ha. cbn in *.
  rewrite (Hd Hh) in Ha. discriminate.
Qed.

Lemma validate_dead rows token :
  dead (hash token) rows -> validate hash rows token = inl InvalidToken.
Proof.
  intros Hd. unfold validate.
  destruct (List.find _ rows) as [t|] eqn:Hf; [|reflexivity].
  apply List.find_some in Hf as [Hin Hp].
  apply andb_prop in Hp as [Hh Ha]. apply bool_decide_eq_true in Hh.
  unfold dead in Hd. rewrite List.Forall_forall in Hd.
  rewrite (Hd t Hin Hh) in Ha. discriminate.
Qed.

Lemma apply_only_owner h user rows op :
  op_hash_differs hash h op ->
  only_owner h user rows -> only_owner h user (apply hash rows op).
Proof.
  intros Hop Hrows. unfold only_owner in *. destruct op as [u l tok now | tid now]; cbn.
  - apply Forall_app. split.
    + apply Forall_fmap. eapply Forall_impl; [exact Hrows|].
      intros t Ht. cbn. case_decide.
      * rewrite revoke_row_inactive. discriminate.
      * exact Ht.
    + constructor; [|constructor]. cbn. intros Hh. now destruct Hop.
  - unfold revoke. apply Forall_fmap. eapply Forall_impl; [exact Hrows|].
    intros t Ht. cbn. case_decide.
    + rewrite revoke_row_inactive. discriminate.
    + exact Ht.
Qed.

Lemma apply_dead h rows op :
  op_hash_differs hash h op -> dead h rows -> dead h (apply hash rows op).
Proof.
  intros Hop Hrows. unfold dead in *. destruct op as [u l tok now | tid now]; cbn.
  - apply Forall_app. split.
    + apply Forall_fmap. eapply Forall_impl; [exact Hrows|].
      intros t Ht. cbn. case_decide.
      * intros _. apply revoke_row_inactive.
      * exact Ht.
    + constructor; [|constructor]. cbn. intros Hh. now destruct Hop.
  - unfold revoke. apply Forall_fmap. eapply Forall_impl; [exact Hrows|].
    intros t Ht. cbn. case_decide.
    + intros _. apply revoke_row_inactive.
    + exact Ht.
Qed.

Lemma issue_kills h user rows label token now :
  hash token <> h ->
  only_owner h user rows -> dead h (snd (issue hash rows user label token now)).
Proof.
  intros Hne Hrows. unfold dead, only_owner in *. cbn [issue snd].
  apply Forall_app. split.
  - apply Forall_fmap. eapply Forall_impl; [exact Hrows|].
    intros t Ht. cbn. case_decide as Hu.
    + intros _. apply revoke_row_inactive.
    + intros Hh. destruct (active t) eqn:Ha; [|reflexivity].
      cbn in Ht. now specialize (Ht Hh Ha).
  - constructor; [|constructor]. cbn. intros Hh. contradiction.
Qed.

Lemma later_issue_kills h user ops rows :
  Forall (op_hash_differs hash h) ops ->
  existsb (issues_for user) ops = true ->
  only_owner h user rows ->
  dead h (fold_left (apply hash) ops rows).
Proof.
  intros Hops. revert rows.
  induction Hops as [|op ops Hop Hops IH]; intros rows Hex Hrows; [discriminate|].
  cbn [fold_left]. cbn [existsb] in Hex.
  destruct (issues_for user op) eqn:Hi.
  - destruct op as [u l tok now | tid now]; [|discriminate].
    cbn in Hi. apply bool_decide_eq_true in Hi. subst u.
    assert (Hd : dead h (apply hash rows (Issue user l tok now))).
    { cbn. apply issue_kills; [exact Hop | exact Hrows]. }
    clear Hex IH Hrows. revert Hd. generalize (apply hash rows (Issue user l tok now)).
    induction Hops as [|op' ops' Hop' _ IH']; intros rows' Hd; [exact Hd|].
    cbn [fold_left]. apply IH'. now apply apply_dead.
  - apply IH; [exact Hex|]. now apply apply_only_owner.
Qed.

Lemma issue_only_owner rows user label token now :
  Forall (fun t => token_hash t <> hash token) rows ->
  only_owner (hash token) user (snd (issue hash rows user label token now)).
Proof.
  intros Hfresh. unfold only_owner. cbn [issue snd].
  apply Forall_app. split.
  - apply Forall_fmap. eapply Forall_impl; [exact Hfresh|].
    intros t Ht. cbn. case_decide.
    + rewrite revoke_row_hash. intros Hh. contradiction.
    + intros Hh. contradiction.
  - constructor; [|constructor]. cbn. reflexivity.
Qed.

Lemma find_live_tail token (older : list MCPAccessToken) (row : MCPAccessToken) :
  Forall (fun t => token_hash t <> hash token) older ->
  token_hash row = hash token -> active row = true ->
  List.find (fun t => bool_decide (token_hash t = hash token) && active t)
            (older ++ [row]) = Some row.
Proof.
  intros Hold Hh Ha. induction Hold as [|t older Ht _ IH].
  - cbn. now rewrite bool_decide_eq_true_2, Ha.
  - cbn [app List.find]. now rewrite bool_decide_eq_false_2.
Qed.

Lemma validate_after_issue rows user label token now :
  Forall (fun t => token_hash t <> hash token) rows ->
  validate hash (snd (issue hash rows user label token now)) token = inr user.
Proof.
  intros Hfresh. unfold validate. cbn [issue snd].
  rewrite find_live_tail; [reflexivity | | reflexivity | reflexivity].
  apply Forall_fmap. eapply Forall_impl; [exact Hfresh|].
  intros t Ht. cbn. case_decide; [now rewrite revoke_row_hash | exact Ht].
Qed.

End TokenFacts.

(** C2: issuing a token leaves the user with exactly one non-revoked token
    and other users' counts untouched, so "at most one per user" is kept by
    every issue and every revoke and holds after every history that starts
    from the empty table; a freshly issued token validates to its
    user, and once any later sequence of issues and revokes contains another
    issue for that user, it no longer validates (token hashes drawn later
    being different from its own). *)
Theorem one_active_token_per_user :
  forall (hash : string -> string) (rows : list TokenManager.MCPAccessToken)
         (user label token : string) (now : Z),
    TokenManager.active_count user
      (snd (TokenManager.issue hash rows user label token now)) = 1
    /\ (forall other, other <> user ->
          TokenManager.active_count other
            (snd (TokenManager.issue hash rows user label token now)) =
          TokenManager.active_count other rows)
    /\ ((forall v, TokenManager.active_count v rows <= 1) ->
        forall v op, TokenManager.active_count v (TokenManager.apply hash rows op) <= 1)
    /\ (forall ops v,
          TokenManager.active_count v (fold_left (TokenManager.apply hash) ops []) <= 1)
    /\ (Forall (fun t => TokenManager.token_hash t <> hash token) rows ->
        TokenManager.validate hash
          (snd (TokenManager.issue hash rows user label token now)) token = inr user
        /\ forall ops,
             Forall (TokenManager.op_hash_differs hash (hash token)) ops ->
             existsb (TokenManager.issues_for user) ops = true ->
             TokenManager.validate hash
               (fold_left (TokenManager.apply hash) ops
                  (snd (TokenManager.issue hash rows user label token now)))
               token = inl TokenManager.InvalidToken).
Proof.
  intros hash rows user label token now. split; [|split; [|split; [|split]]].
  - apply issue_count_self.
  - intros other Hne. now apply issue_count_other.
  - intros Hinv v op. now apply apply_count_le.
  - intros ops. apply history_count_le. intros v. cbn. lia.
  - intros Hfresh. split; [now apply validate_after_issue|].
    intros ops Hops Hex. apply validate_dead.
    apply (later_issue_kills hash (hash token) user); [exact Hops | exact Hex |].
    now apply issue_only_owner.
Qed.

Lemma one_active_token_per_user_witness :
  TokenManager.validate sample_token_hash
    (snd (TokenManager.issue sample_token_hash
            (snd (TokenManager.issue sample_token_hash sample_tokens
                    "a@b.com" "vscode" "first" 10))
            "a@b.com" "vscode" "second" 20))
    "first" = inl TokenManager.InvalidToken.
Proof.
  pose proof (one_active_token_per_user sample_token_hash sample_tokens
                "a@b.com" "vscode" "first" 10) as (_ & _ & _ & _ & Hval).
  assert (Hfresh : Forall (fun t => TokenManager.token_hash t <> sample_token_hash "first")
                     sample_tokens).
  { repeat constructor. discriminate. }
  refine (proj2 (Hval Hfresh) [TokenManager.Issue "a@b.com" "vscode" "second" 20] _ eq_refl).
  repeat constructor. discriminate.
Defined.

(** ** Authorization callbacks *)

Section FlowFacts.

Import FlowEngine.

Variable resolve : string -> option ProviderConfig.
Variable encrypt : string -> string.
Variable state_ttl : Z.
Variable authorize_url : ProviderConfig -> string -> string.

Lemma perform_handle_pending e cb exchange now :
  pending (perform resolve encrypt state_ttl authorize_url e (Handle cb exchange now))
  = pending e.
Proof.
  cbn. destruct (handleCallback encrypt e cb exchange now) as [err|e'] eqn:H;
    [reflexivity|].
  unfold handleCallback in H.
  destruct (cb_state cb); [|discriminate].
  destruct (lookup_state _ _ _ _); [|discriminate].
  destruct (cb_error cb) as [[? ?]|]; [discriminate|].
  destruct (exchange _); [discriminate|].
  now injection H as <-.
Qed.

Lemma perform_begin_pending e user server state now p :
  In p (pending (perform resolve encrypt state_ttl authorize_url e
                   (Begin user server state now))) ->
  In p (pending e) \/ pending_state p = state.
Proof.
  cbn. unfold beginAuthorization. destruct (resolve server); [|now left].
  cbn. rewrite in_app_iff. intros [Hin | [<- | []]].
  - apply List.filter_In in Hin as [Hin _]. now left.
  - now right.
Qed.

Lemma pending_was_issued calls e known :
  (forall p, In p (pending e) -> In (pending_state p) known) ->
  forall p,
    In p (pending (fold_left (perform resolve encrypt state_ttl authorize_url) calls e)) ->
    In (pending_state p) (known ++ issued calls).
Proof.
  revert e known. induction calls as [|c calls IH]; intros e known Hknown p Hin.
  - cbn in *. rewrite app_nil_r. now apply Hknown.
  - cbn [fold_left] in Hin. destruct c as [user server state now | cb exchange now].
    + cbn [issued].
      replace (known ++ state :: issued calls)
        with ((known ++ [state]) ++ issued calls) by now rewrite <- app_assoc.
      apply (IH _ (known ++ [state])) in Hin; [exact Hin|].
      intros q Hq. apply in_app_iff.
      destruct (perform_begin_pending _ _ _ _ _ _ Hq) as [Hold | Hnew].
      * left. now apply Hknown.
      * right. left. now symmetry.
    + cbn [issued].
      apply (IH _ known) in Hin; [exact Hin|].
      intros q Hq. rewrite perform_handle_pending in Hq. now apply Hknown.
Qed.

Lemma lookup_state_none e server state now :
  (forall p, In p (pending e) -> pending_state p = state ->
             pending_server p = server -> (pending_expires_at p <= now)%Z) ->
  lookup_state e server state now = None.
Proof.
  intros Hnone. unfold lookup_state.
  destruct (List.find _ (pending e)) as [p|] eqn:Hf; [|reflexivity].
  apply List.find_some in Hf as [Hin Hp].
  apply andb_prop in Hp as [Hp Hlt]. apply andb_prop in Hp as [Hs Hv].
  apply bool_decide_eq_true in Hs, Hv. apply Z.ltb_lt in Hlt.
  specialize (Hnone p Hin Hs Hv). lia.
Qed.

End FlowFacts.

(** C6: in the engine reached by any history of calls, a callback whose
    state is missing, or was handed out by no [beginAuthorization] of that
    history, or matches only entries for this server that have expired,
    fails with [InvalidState] (whatever code or provider error it carries
    and whatever the token endpoint would answer), and the engine, grants
    included, is left as it was. *)
Theorem invalid_state_is_rejected :
  forall (resolve : string -> option FlowEngine.ProviderConfig)
         (encrypt : string -> string) (state_ttl : Z)
         (authorize_url : FlowEngine.ProviderConfig -> string -> string)
         (calls : list FlowEngine.Call) (cb : FlowEngine.Callback)
         (exchange : string -> string + FlowEngine.Tokens) (now : Z),
    FlowEngine.cb_state cb = None
    \/ (exists s, FlowEngine.cb_state cb = Some s /\ ~ In s (FlowEngine.issued calls))
    \/ (exists s, FlowEngine.cb_state cb = Some s
                  /\ forall p,
                       In p (FlowEngine.pending
                               (FlowEngine.history resolve encrypt state_ttl
                                  authorize_url calls)) ->
                       FlowEngine.pending_state p = s ->
                       FlowEngine.pending_server p = FlowEngine.cb_server cb ->
                       (FlowEngine.pending_expires_at p <= now)%Z) ->
    FlowEngine.handleCallback encrypt
      (FlowEngine.history resolve encrypt state_ttl authorize_url calls)
      cb exchange now = inl FlowEngine.InvalidState
    /\ FlowEngine.perform resolve encrypt state_ttl authorize_url
         (FlowEngine.history resolve encrypt state_ttl authorize_url calls)
         (FlowEngine.Handle cb exchange now)
       = FlowEngine.history resolve encrypt state_ttl authorize_url calls.
Proof.
  intros resolve encrypt ttl authorize_url calls cb exchange now Hbad.
  assert (Hfail : FlowEngine.handleCallback encrypt
            (FlowEngine.history resolve encrypt ttl authorize_url calls)
            cb exchange now = inl FlowEngine.InvalidState).
  { unfold FlowEngine.handleCallback.
    destruct Hbad as [-> | [(s & -> & Hnot) | (s & -> & Hexp)]]; [reflexivity | |].
    - rewrite lookup_state_none; [reflexivity|].
      intros p Hin Hs _. exfalso. apply Hnot. subst s.
      apply (pending_was_issued resolve encrypt ttl authorize_url calls
               FlowEngine.init [] (fun q (Hq : In q []) => match Hq with end) p Hin).
    - now rewrite lookup_state_none. }
  split; [exact Hfail|]. cbn [FlowEngine.perform]. now rewrite Hfail.
Qed.

Lemma invalid_state_is_rejected_witness :
  FlowEngine.handleCallback sample_encrypt
    (FlowEngine.history sample_resolve sample_encrypt 600 sample_authorize_url sample_calls)
    forged_callback sample_exchange 30 = inl FlowEngine.InvalidState.
Proof.
  refine (proj1 (invalid_state_is_rejected sample_resolve sample_encrypt 600
                   sample_authorize_url sample_calls forged_callback sample_exchange 30
                   (or_intror (or_introl (ex_intro _ "forged" (conj eq_refl _)))))).
  cbn. intros [H | []]. discriminate H.
Defined.

(** ** Grouping tools by category *)

Section GroupFacts.

Import AdminUsers ToolGroups.

Lemma group_into_lookup tools :
  forall grouped result,
    group_into grouped tools = Some result ->
    forall c, result !! c = extended grouped tools c.
Proof.
  induction tools as [|tool rest IH]; intros grouped result Hrun c.
  - injection Hrun as <-. unfold extended. cbn.
    destruct (grouped !! c); [now rewrite app_nil_r | reflexivity].
  - cbn [group_into] in Hrun. unfold extended. cbn [List.filter].
    destruct (grouped !! category_key tool) as [members|] eqn:Hown.
    + rewrite (IH _ _ Hrun c). unfold extended.
      destruct (decide (category_key tool = c)) as [Heq | Hne].
      * rewrite Heq in *. rewrite lookup_insert_eq, Hown.
        rewrite bool_decide_eq_true_2 by reflexivity.
        now rewrite <- app_assoc.
      * rewrite lookup_insert_ne by exact Hne.
        now rewrite bool_decide_eq_false_2.
    + case_bool_decide; [discriminate|].
      rewrite (IH _ _ Hrun c). unfold extended.
      destruct (decide (category_key tool = c)) as [Heq | Hne].
      * rewrite Heq in *. rewrite lookup_insert_eq, Hown.
        now rewrite bool_decide_eq_true_2.
      * rewrite lookup_insert_ne by exact Hne.
        now rewrite bool_decide_eq_false_2.
Qed.

Lemma group_into_succeeds tools :
  forall grouped,
    (forall c, c ∈ objectPrototypeKeys -> grouped !! c = None) ->
    (exists result, group_into grouped tools = Some result) <->
    Forall (fun t => category_key t ∉ objectPrototypeKeys) tools.
Proof.
  induction tools as [|tool rest IH]; intros grouped Hclean.
  - split; [constructor | intros _; now exists grouped].
  - cbn [group_into].
    destruct (grouped !! category_key tool) as [members|] eqn:Hown.
    + assert (Hk : category_key tool ∉ objectPrototypeKeys).
      { intros Hin. rewrite (Hclean _ Hin) in Hown. discriminate. }
      rewrite IH.
      * split; [intros H; now constructor | intros H; now inversion H].
      * intros c Hc. rewrite lookup_insert_ne; [now apply Hclean|].
        intros <-. contradiction.
    + case_bool_decide as Hk.
      * split; [intros [? ?]; discriminate|].
        intros H. inversion H. contradiction.
      * rewrite IH.
        -- split; [intros H; now constructor | intros H; now inversion H].
        -- intros c Hc. rewrite lookup_insert_ne; [now apply Hclean|].
           intros <-. contradiction.
Qed.

End GroupFacts.

(** X1: when grouping returns, the group stored under a category is exactly
    the list of tools with that category (an empty category counting as
    "Other"), in their original order, and no group is empty; so every tool
    sits in the group of its category. *)
Theorem grouping_is_a_partition :
  forall (tools : list AdminUsers.Tool) (grouped : gmap string (list AdminUsers.Tool)),
    ToolGroups.groupToolsByCategory tools = Some grouped ->
    (forall c,
        grouped !! c =
          match List.filter (fun t => bool_decide (ToolGroups.category_key t = c)) tools with
          | [] => None
          | members => Some members
          end)
    /\ (forall t, In t tools ->
          exists members, grouped !! ToolGroups.category_key t = Some members
                          /\ In t members).
Proof.
  intros tools grouped Hrun.
  assert (Hlookup : forall c,
    grouped !! c =
      match List.filter (fun t => bool_decide (ToolGroups.category_key t = c)) tools with
      | [] => None
      | members => Some members
      end).
  { intros c. rewrite (group_into_lookup tools ∅ grouped Hrun c).
    unfold ToolGroups.extended. now rewrite lookup_empty. }
  split; [exact Hlookup|].
  intros t Hin. rewrite Hlookup.
  assert (Hmem : In t (List.filter
             (fun t' => bool_decide (ToolGroups.category_key t' = ToolGroups.category_key t))
             tools)).
  { apply List.filter_In. split; [exact Hin | now apply bool_decide_eq_true_2]. }
  destruct (List.filter _ tools) as [|m ms]; [destruct Hmem|].
  exists (m :: ms). split; [reflexivity | exact Hmem].
Qed.

Lemma grouping_is_a_partition_witness :
  exists grouped,
    ToolGroups.groupToolsByCategory (AdminUsers.userTools sample_page) = Some grouped
    /\ grouped !! "Issues" =
         Some [ sample_tool "create_issue" true None true;
                sample_tool "delete_repo" false (Some true) false ].
Proof.
  pose proof (grouping_is_a_partition (AdminUsers.userTools sample_page)) as Hpart.
  destruct (ToolGroups.groupToolsByCategory (AdminUsers.userTools sample_page))
    as [grouped|] eqn:Hrun.
  - exists grouped. split; [reflexivity|].
    rewrite (proj1 (Hpart grouped eq_refl) "Issues"). reflexivity.
  - vm_compute in Hrun. discriminate Hrun.
Defined.

(** X2: grouping returns exactly when no tool's category is the name of a
    property inherited from [Object.prototype]; a single tool filed under,
    say, "constructor" makes it throw. *)
Theorem grouping_throws_on_inherited_names :
  forall (tools : list AdminUsers.Tool),
    (exists grouped, ToolGroups.groupToolsByCategory tools = Some grouped) <->
    Forall (fun t => ToolGroups.category_key t ∉ ToolGroups.objectPrototypeKeys) tools.
Proof.
  intros tools. apply group_into_succeeds. intros c _. apply lookup_empty.
Qed.

Lemma grouping_throws_on_inherited_names_witness :
  ~ exists grouped,
      ToolGroups.groupToolsByCategory
        [ sample_tool "create_issue" true None true; odd_category_tool ] = Some grouped.
Proof.
  intros H.
  apply (proj1 (grouping_throws_on_inherited_names
                  [ sample_tool "create_issue" true None true; odd_category_tool ])) in H.
  inversion H as [|? ? _ Hrest]. inversion Hrest as [|? ? Hodd _].
  apply Hodd. vm_compute. set_solver.
Defined.

(** ** Tool checkboxes of the settings modal *)

Section ToolPermissionFacts.

Import ToolPermissions.

Lemma fetched_enabled_spec tools n :
  n ∈ fetched_enabled tools <->
  exists t, In t tools /\ not_disabled t = true /\ name t = n.
Proof.
  unfold fetched_enabled. rewrite elem_of_list_to_set, list_elem_of_In, in_map_iff.
  split.
  - intros (t & Hn & Hin). apply List.filter_In in Hin as [Hin Hnd]. eauto.
  - intros (t & Hin & Hnd & Hn). exists t. split; [exact Hn|].
    apply List.filter_In. now split.
Qed.

Lemma unique_name tools t t' :
  NoDup (map name tools) -> In t tools -> In t' tools -> name t = name t' -> t = t'.
Proof.
  induction tools as [|x rest IH]; intros Hnd Hin Hin' Hname; [destruct Hin|].
  cbn in Hnd. apply NoDup_cons in Hnd as [Hfresh Hnd].
  rewrite list_elem_of_In, in_map_iff in Hfresh.
  destruct Hin as [<- | Hin], Hin' as [<- | Hin'].
  - reflexivity.
  - exfalso. apply Hfresh. exists t'. now split.
  - exfalso. apply Hfresh. exists t. now split.
  - now apply IH.
Qed.

Lemma toggle_membership n m s :
  m ∈ handleToolToggle n s <-> (m = n /\ m ∉ s) \/ (m <> n /\ m ∈ s).
Proof.
  unfold handleToolToggle. case_decide as Hin.
  - rewrite elem_of_difference, elem_of_singleton.
    destruct (decide (m = n)) as [-> | Hne]; intuition congruence.
  - rewrite elem_of_union, elem_of_singleton.
    destruct (decide (m = n)) as [-> | Hne]; intuition congruence.
Qed.

End ToolPermissionFacts.

(** X3: ticking a tool's checkbox twice restores the set of enabled tools,
    and one tick changes the membership of that tool and of no other. *)
Theorem tool_toggle_is_an_involution :
  forall (toolName : string) (prev : gset string),
    ToolPermissions.handleToolToggle toolName
      (ToolPermissions.handleToolToggle toolName prev) = prev
    /\ (toolName ∈ ToolPermissions.handleToolToggle toolName prev <-> toolName ∉ prev)
    /\ (forall other, other <> toolName ->
          (other ∈ ToolPermissions.handleToolToggle toolName prev <-> other ∈ prev)).
Proof.
  intros n s. split; [|split].
  - apply set_eq. intros m. rewrite !toggle_membership.
    destruct (decide (m = n)); destruct (decide (m ∈ s)); tauto.
  - rewrite toggle_membership. intuition congruence.
  - intros other Hne. rewrite toggle_membership. intuition congruence.
Qed.

(** X4: with pairwise distinct tool names, saving the modal without touching
    a checkbox posts for every tool the flag it was fetched with (an absent
    flag counting as enabled), and saving after one tick posts the opposite
    flag for the ticked tool and the fetched flag for all others. *)
Theorem tool_flags_round_trip :
  forall (tools : list ToolPermissions.ServerTool),
    NoDup (map ToolPermissions.name tools) ->
    ToolPermissions.toolUpdates tools (ToolPermissions.fetched_enabled tools) =
      map (fun t => (ToolPermissions.name t, ToolPermissions.not_disabled t)) tools
    /\ (forall ticked,
          ToolPermissions.toolUpdates tools
            (ToolPermissions.handleToolToggle ticked
               (ToolPermissions.fetched_enabled tools)) =
          map (fun t => (ToolPermissions.name t,
                         if decide (ToolPermissions.name t = ticked)
                         then negb (ToolPermissions.not_disabled t)
                         else ToolPermissions.not_disabled t)) tools).
Proof.
  intros tools Hnd.
  assert (Hown : forall t, In t tools ->
            ToolPermissions.name t ∈ ToolPermissions.fetched_enabled tools <->
            ToolPermissions.not_disabled t = true).
  { intros t Hin. rewrite fetched_enabled_spec. split.
    - intros (t' & Hin' & Hen & Hname).
      now rewrite <- (unique_name tools t' t Hnd Hin' Hin Hname).
    - intros Hen. now exists t. }
  split.
  - unfold ToolPermissions.toolUpdates. apply List.map_ext_in. intros t Hin.
    f_equal. destruct (ToolPermissions.not_disabled t) eqn:Hen.
    + apply bool_decide_eq_true_2. now apply Hown.
    + apply bool_decide_eq_false_2. rewrite (Hown t Hin). congruence.
  - intros ticked. unfold ToolPermissions.toolUpdates.
    apply List.map_ext_in. intros t Hin. f_equal.
    case_decide as Ht.
    + destruct (ToolPermissions.not_disabled t) eqn:Hen; cbn.
      * apply bool_decide_eq_false_2. rewrite toggle_membership, (Hown t Hin).
        intuition congruence.
      * apply bool_decide_eq_true_2. rewrite toggle_membership, (Hown t Hin).
        left. split; [exact Ht | congruence].
    + destruct (ToolPermissions.not_disabled t) eqn:Hen.
      * apply bool_decide_eq_true_2. rewrite toggle_membership, (Hown t Hin).
        right. now split.
      * apply bool_decide_eq_false_2. rewrite toggle_membership, (Hown t Hin).
        intuition congruence.
Qed.

Lemma tool_flags_round_trip_witness :
  ToolPermissions.toolUpdates sample_server_tools
    (ToolPermissions.fetched_enabled sample_server_tools) =
  [ ("create_issue", true); ("delete_repo", false) ].
Proof.
  refine (proj1 (tool_flags_round_trip sample_server_tools _)).
  cbn. apply NoDup_cons. split.
  - rewrite list_elem_of_In. intros [H | []]. discriminate H.
  - apply NoDup_singleton.
Defined.

(** X5: flipping a row's switch twice does not bring back inheritance: the
    row ends with an explicit override equal to what the switch showed at
    first, and access equal to the organisation flag and that value; only
    the reset button clears the override. *)
Theorem double_flip_leaves_explicit_override :
  forall (u : string) (p : AdminUsers.Page) (i : nat) (tool : AdminUsers.Tool),
    AdminUsers.selectedUser p = Some u ->
    AdminUsers.userTools p !! i = Some tool ->
    let once := AdminUsers.with_access tool
                  (Some (negb (AdminUsers.switch_checked tool)))
                  (AdminUsers.org_enabled tool && negb (AdminUsers.switch_checked tool)) in
    let twice := AdminUsers.with_access tool
                   (Some (AdminUsers.switch_checked tool))
                   (AdminUsers.org_enabled tool && AdminUsers.switch_checked tool) in
    AdminUsers.userTools (AdminUsers.onCheckedChange true tool p) !! i = Some once
    /\ AdminUsers.userTools
         (AdminUsers.onCheckedChange true once (AdminUsers.onCheckedChange true tool p)) !! i
       = Some twice
    /\ AdminUsers.user_override twice <> None
    /\ AdminUsers.reset_row (AdminUsers.tool_id tool) twice =
       AdminUsers.with_access tool None (AdminUsers.org_enabled tool).
Proof.
  intros u p i tool Hu Hi once twice.
  assert (H1 : AdminUsers.userTools (AdminUsers.onCheckedChange true tool p) !! i
               = Some once).
  { unfold AdminUsers.onCheckedChange, AdminUsers.toggleUserTool. rewrite Hu.
    cbn [AdminUsers.userTools]. rewrite list_lookup_fmap, Hi.
    cbn [fmap option_fmap option_map]. now rewrite toggle_row_hit. }
  split; [exact H1|]. split; [|split].
  - unfold AdminUsers.onCheckedChange at 1. unfold AdminUsers.toggleUserTool at 1.
    assert (Hu' : AdminUsers.selectedUser (AdminUsers.onCheckedChange true tool p)
                  = Some u).
    { unfold AdminUsers.onCheckedChange, AdminUsers.toggleUserTool.
      now rewrite Hu. }
    rewrite Hu'. cbn [AdminUsers.userTools].
    rewrite list_lookup_fmap, H1. cbn [fmap option_fmap option_map].
    rewrite toggle_row_hit by reflexivity.
    unfold once, twice, AdminUsers.switch_checked, AdminUsers.with_access. cbn.
    now rewrite negb_involutive.
  - discriminate.
  - now rewrite reset_row_hit.
Qed.

Lemma double_flip_leaves_explicit_override_witness :
  AdminUsers.userTools
    (AdminUsers.onCheckedChange true (sample_tool "create_issue" true (Some false) false)
       (AdminUsers.onCheckedChange true (sample_tool "create_issue" true None true)
          sample_page)) !! 0%nat
  = Some (sample_tool "create_issue" true (Some true) true).
Proof.
  exact (proj1 (proj2 (double_flip_leaves_explicit_override "a@b.com" sample_page 0
                         (sample_tool "create_issue" true None true) eq_refl eq_refl))).
Defined.

(** ** More on the rejection handler *)

Section MoreApiFacts.

Import Api ApiInvariants.

Lemma prefix_spec u s :
  String.prefix u s = true <-> exists post, s = u +:+ post.
Proof.
  revert u. induction s as [|b s IH]; intros [|a u]; cbn.
  - split; [intros _; now exists "" | reflexivity].
  - split; [discriminate | intros [post H]; discriminate].
  - split; [intros _; now exists (String b s) | reflexivity].
  - destruct (Ascii.ascii_dec a b) as [<- | Hne].
    + rewrite IH. split; intros [post H]; exists post.
      * now rewrite H.
      * now injection H.
    + split; [discriminate | intros [post H]; injection H; congruence].
Qed.

Lemma includes_spec s u :
  includes s u = true <-> exists pre post, s = pre +:+ u +:+ post.
Proof.
  induction s as [|a s IH]; cbn [includes].
  - rewrite orb_false_r, prefix_spec. split.
    + intros [post H]. now exists "", post.
    + intros (pre & post & H). destruct pre; [now exists post | discriminate].
  - rewrite orb_true_iff, prefix_spec, IH. split.
    + intros [[post H] | (pre & post & H)].
      * now exists "", post.
      * exists (String a pre), post. cbn. now rewrite H.
    + intros (pre & post & H). destruct pre as [|b pre]; cbn in H.
      * left. now exists post.
      * right. exists pre, post. now injection H.
Qed.

Lemma react_consistent m i m' :
  consistent m -> react m i = Some m' -> consistent m'.
Proof.
  intros (Hflag & Hempty & Hqueue & Hmark) Hstep.
  pose proof (conj Hflag (conj Hempty (conj Hqueue Hmark))) as Hsame.
  destruct i as [c | c r | refreshError]; cbn [react] in Hstep.
  - injection Hstep as <-. exact Hsame.
  - case_decide; [|discriminate]. destruct r as [d | msg resp].
    { injection Hstep as <-. exact Hsame. }
    unfold onRejected in Hstep. cbn [config] in Hstep.
    destruct (status_is _ 402).
    { injection Hstep as <-. exact Hsame. }
    destruct (status_is _ 401 && negb (_retry c) && negb (shouldSkipRefresh c)) eqn:Hcond.
    2:{ injection Hstep as <-. exact Hsame. }
    apply andb_prop in Hcond as [Hcond Hskip]. apply andb_prop in Hcond as [_ Hunmarked].
    apply negb_true_iff in Hskip, Hunmarked.
    destruct (isRefreshing (client m)) eqn:Hr; injection Hstep as <-;
      unfold consistent; cbn [client awaiting isRefreshing refreshSubscribers].
    + split; [exact Hflag|]. split; [discriminate|]. split; [|exact Hmark].
      apply Forall_app. split; [exact Hqueue | now repeat constructor].
    + split; [split; discriminate|]. split; [discriminate|].
      split; [exact Hqueue|]. now intros orig [= <-].
  - destruct (awaiting m) as [orig|]; [|discriminate].
    destruct refreshError as [e|]; cbn [afterRefresh] in Hstep;
      injection Hstep as <-; unfold consistent;
      cbn [client awaiting isRefreshing refreshSubscribers idle];
      (split; [split; reflexivity|]); (split; [reflexivity|]);
      (split; [constructor | discriminate]).
Qed.

Lemma run_consistent inputs :
  forall m m', consistent m -> run m inputs = Some m' -> consistent m'.
Proof.
  induction inputs as [|i rest IH]; intros m m' Hm Hrun; cbn [run] in Hrun.
  - now injection Hrun as <-.
  - destruct (react m i) as [m1|] eqn:Hstep; [|discriminate].
    eapply IH; [|exact Hrun]. eapply react_consistent; eauto.
Qed.

End MoreApiFacts.

(** X6: a request is exempt from the refresh logic exactly when its URL
    contains one of the three authentication paths anywhere in it, so an
    absolute URL or one with a query string is exempt as well, and a request
    without URL never is. *)
Theorem skip_is_a_substring_match :
  forall (c : Api.Config),
    Api.shouldSkipRefresh c = true <->
    exists s path pre post,
      Api.url c = Some s /\ In path Api.skipRefreshUrls
      /\ s = pre +:+ path +:+ post.
Proof.
  intros c. unfold Api.shouldSkipRefresh. rewrite existsb_exists. split.
  - intros (path & Hin & Hinc). destruct (Api.url c) as [s|]; [|discriminate].
    apply includes_spec in Hinc as (pre & post & Hs). now exists s, path, pre, post.
  - intros (s & path & pre & post & -> & Hin & ->). exists path.
    split; [exact Hin|]. apply includes_spec. now exists pre, post.
Qed.

Lemma skip_is_a_substring_match_witness :
  Api.shouldSkipRefresh absolute_logout = true.
Proof.
  apply (proj2 (skip_is_a_substring_match absolute_logout)).
  exists "https://gw.example/api/auth/logout?all=1", "/api/auth/logout",
         "https://gw.example", "?all=1".
  split; [reflexivity|]. split; [|reflexivity]. right. left. reflexivity.
Defined.

(** X7: whatever calls, answers and refresh outcomes arrive in whatever
    order, a refresh is flagged exactly while one handler waits for it, the
    queue is empty whenever no refresh is flagged, only unmarked requests
    outside the authentication paths are ever queued, and the request a
    waiting handler will send again carries the retry mark. *)
Theorem refresh_state_stays_consistent :
  forall (inputs : list Api.Input) (m : Api.Machine),
    Api.run Api.boot inputs = Some m ->
    (Api.awaiting m = None <-> Api.isRefreshing (Api.client m) = false)
    /\ (Api.isRefreshing (Api.client m) = false ->
        Api.refreshSubscribers (Api.client m) = [])
    /\ Forall (fun c => Api._retry c = false /\ Api.shouldSkipRefresh c = false)
         (Api.refreshSubscribers (Api.client m))
    /\ (forall orig, Api.awaiting m = Some orig -> Api._retry orig = true).
Proof.
  intros inputs m Hrun.
  apply (run_consistent inputs Api.boot m); [|exact Hrun].
  unfold ApiInvariants.consistent. cbn.
  split; [split; reflexivity|]. split; [reflexivity|].
  split; [constructor | discriminate].
Qed.

Lemma refresh_state_stays_consistent_witness :
  exists m,
    Api.run Api.boot (take 4 overlapping_requests) = Some m
    /\ Api.refreshSubscribers (Api.client m) = [request_b]
    /\ Forall (fun c => Api._retry c = false /\ Api.shouldSkipRefresh c = false)
         (Api.refreshSubscribers (Api.client m)).
Proof.
  pose proof (refresh_state_stays_consistent (take 4 overlapping_requests)) as Hinv.
  destruct (Api.run Api.boot (take 4 overlapping_requests)) as [m|] eqn:Hrun.
  - exists m. split; [reflexivity|]. split.
    + vm_compute in Hrun. injection Hrun as <-. reflexivity.
    + exact (proj1 (proj2 (proj2 (Hinv m eq_refl)))).
  - vm_compute in Hrun. discriminate Hrun.
Defined.

(** X8: the interceptor with the 402 branch and the earlier one without it
    decide alike, with the same change of flag and queue, on every error
    whose status is not 402; on a 402 the earlier one passes the axios error
    on unchanged and starts no refresh. *)
Theorem interceptors_agree_off_402 :
  forall (st : Api.Client) (error : Api.AxiosError),
    (Api.status_is error 402 = false ->
       Api.onRejected st error = ApiEarlier.onRejected st error)
    /\ (Api.status_is error 402 = true ->
        ApiEarlier.onRejected st error = (st, Api.Rejected (Api.Plain error))
        /\ Api.onRejected st error <> ApiEarlier.onRejected st error).
Proof.
  intros st error. split.
  - intros H. unfold Api.onRejected, ApiEarlier.onRejected. now rewrite H.
  - intros H.
    assert (Hv1 : ApiEarlier.onRejected st error = (st, Api.Rejected (Api.Plain error))).
    { unfold ApiEarlier.onRejected. now rewrite (status_402_not_401 _ H). }
    split; [exact Hv1|]. rewrite Hv1, (onRejected_402 _ _ H). intros [=].
Qed.

Lemma interceptors_agree_off_402_witness :
  ApiEarlier.onRejected Api.idle payment_required =
    (Api.idle, Api.Rejected (Api.Plain payment_required)).
Proof.
  exact (proj1 (proj2 (interceptors_agree_off_402 Api.idle payment_required) eq_refl)).
Defined.

Section SessionFacts.

Import Api AuthUtils.

Lemma password_change_is_403 error :
  isPasswordChangeRequired (Plain error) = true ->
  exists d, response error = Some {| status := 403; detail := Some d |}
            /\ (d = "PASSWORD_CHANGE_REQUIRED" \/ d = "PASSWORD_EXPIRED").
Proof.
  unfold isPasswordChangeRequired. cbn.
  destruct (response error) as [[code det]|]; [|discriminate]. cbn.
  destruct (Z.eqb_spec code 403) as [-> | _]; [|discriminate].
  intros [H | H]%orb_prop; apply bool_decide_eq_true_1 in H; subst det;
    eexists; (split; [reflexivity|]); [now left | now right].
Qed.

Lemma password_change_passes st error :
  isPasswordChangeRequired (Plain error) = true ->
  onRejected st error = (st, Rejected (Plain error)).
Proof.
  intros (d & Hresp & _)%password_change_is_403.
  apply onRejected_not_refreshable; unfold status_is; now rewrite Hresp.
Qed.

Lemma rejection_keeps_password_change st error st' r :
  onRejected st error = (st', Rejected r) ->
  st' = st /\ isPasswordChangeRequired r = isPasswordChangeRequired (Plain error).
Proof.
  unfold onRejected. destruct (status_is error 402) eqn:H2.
  - intros [= <- <-]. split; [reflexivity|].
    destruct (isPasswordChangeRequired (Plain error)) eqn:Hp; [|reflexivity].
    apply password_change_is_403 in Hp as (d & Hresp & _).
    unfold status_is in H2. rewrite Hresp in H2. discriminate H2.
  - destruct (_ && _ && _).
    + destruct (isRefreshing st); discriminate.
    + intros [= <- <-]. split; reflexivity.
Qed.

(** Where a rejection of the client comes from: the answer to a request it
    sent, or the error of a refresh, after which the page was sent to the
    login page. *)
Lemma api_failed_origin fuel :
  forall net st log c st' log' r,
    api fuel net st log c = (st', log', Failed r) ->
    (exists l c' msg resp st0 st1,
        serve net l c' = Failure msg resp
        /\ onRejected st0 {| config := c'; message := msg; response := resp |}
           = (st1, Rejected r))
    \/ (exists l e, refresh net l = Some e /\ r = Plain e
                    /\ log' = l ++ [Redirect "/login"]).
Proof.
  induction fuel as [|fuel IH]; intros net st log c st' log' r; cbn; [discriminate|].
  destruct (serve net (log ++ [Send c]) c) as [d | msg resp] eqn:Hserve; [discriminate|].
  destruct (onRejected st _) as [st1 [r1 | | orig]] eqn:Hrej.
  - intros [= <- <- <-]. left. eauto 10.
  - discriminate.
  - destruct (refresh net ((log ++ [Send c]) ++ [PostRefresh])) as [e|] eqn:Hrefresh; cbn.
    + intros [= <- <- <-]. right. eauto.
    + destruct (fold_left _ _ _) as [st3 log3]. apply IH.
Qed.

End SessionFacts.

(** X9: the session check navigates to the forced password change exactly
    when the rejection that reaches it is an axios error with status 403 and
    detail PASSWORD_CHANGE_REQUIRED or PASSWORD_EXPIRED, and to the login
    page for every other rejection, the enterprise error included.  When a
    request is answered that way the interceptor hands the error on in every
    client state without touching flag or queue, and a rejection the
    interceptor produces at once asks for the password change exactly when
    the failed answer does.  A rejection of the client that asks for it is
    such an answer to a request the client sent, or such an answer to the
    token refresh; in the second case the interceptor has already pointed
    the window at the login page, as when the session check is answered 401
    and the refresh 403 PASSWORD_CHANGE_REQUIRED. *)
Theorem password_change_redirect :
  forall (auth : AuthUtils.AuthState),
    (forall r,
        snd (AuthUtils.checkAuth (inl r) auth) =
          (if AuthUtils.isPasswordChangeRequired r
           then [ {| AuthUtils.to := "/force-change-password"; AuthUtils.replace := true |} ]
           else [ {| AuthUtils.to := "/login"; AuthUtils.replace := false |} ])
        /\ AuthUtils.checkAuthAndRedirect (inl r) =
          (if AuthUtils.isPasswordChangeRequired r
           then [ {| AuthUtils.to := "/force-change-password"; AuthUtils.replace := true |} ]
           else [ {| AuthUtils.to := "/login"; AuthUtils.replace := true |} ]))
    /\ (forall msg e,
          AuthUtils.isPasswordChangeRequired (Api.EnterpriseError msg e) = false)
    /\ (forall st error,
          AuthUtils.isPasswordChangeRequired (Api.Plain error) = true ->
          Api.onRejected st error = (st, Api.Rejected (Api.Plain error)))
    /\ (forall st st' error r,
          Api.onRejected st error = (st', Api.Rejected r) ->
          st' = st
          /\ AuthUtils.isPasswordChangeRequired r =
             AuthUtils.isPasswordChangeRequired (Api.Plain error))
    /\ (forall fuel net st log c st' log' r,
          Api.api fuel net st log c = (st', log', Api.Failed r) ->
          AuthUtils.isPasswordChangeRequired r = true ->
          exists e d,
            r = Api.Plain e
            /\ Api.response e = Some {| Api.status := 403; Api.detail := Some d |}
            /\ (d = "PASSWORD_CHANGE_REQUIRED" \/ d = "PASSWORD_EXPIRED")
            /\ ((exists l,
                    Api.serve net l (Api.config e)
                    = Api.Failure (Api.message e) (Api.response e))
                \/ (exists l,
                       Api.refresh net l = Some e
                       /\ log' = l ++ [Api.Redirect "/login"])))
    /\ (exists st' r,
          Api.api 2 refresh_demands_password_change Api.idle [] session_check
          = (st', [ Api.Send session_check; Api.PostRefresh; Api.Redirect "/login" ],
             Api.Failed r)
          /\ snd (AuthUtils.checkAuth (inl r) auth) =
             [ {| AuthUtils.to := "/force-change-password"; AuthUtils.replace := true |} ]
          /\ AuthUtils.checkAuthAndRedirect (inl r) =
             [ {| AuthUtils.to := "/force-change-password"; AuthUtils.replace := true |} ]).
Proof.
  intros auth. split; [|split; [|split; [|split; [|split]]]].
  - intros r. unfold AuthUtils.checkAuth, AuthUtils.checkAuthAndRedirect,
      AuthUtils.handlePasswordChangeRequired.
    destruct (AuthUtils.isPasswordChangeRequired r); split; reflexivity.
  - reflexivity.
  - intros st error. apply password_change_passes.
  - intros st st' error r. apply rejection_keeps_password_change.
  - intros fuel net st log c st' log' r Hrun Hp.
    destruct (api_failed_origin _ _ _ _ _ _ _ _ Hrun)
      as [(l & c' & msg & resp & st0 & st1 & Hserve & Hrej) | (l & e & Hrefresh & -> & ->)].
    + destruct (rejection_keeps_password_change _ _ _ _ Hrej) as [_ Hsame].
      rewrite Hp in Hsame. symmetry in Hsame.
      rewrite (password_change_passes st0 _ Hsame) in Hrej.
      injection Hrej as _ <-.
      destruct (password_change_is_403 _ Hsame) as (d & Hresp & Hd).
      eexists _, d. split; [reflexivity|]. split; [exact Hresp|]. split; [exact Hd|].
      left. exists l. exact Hserve.
    + destruct (password_change_is_403 _ Hp) as (d & Hresp & Hd).
      exists e, d. split; [reflexivity|]. split; [exact Hresp|]. split; [exact Hd|].
      right. exists l. split; [exact Hrefresh | reflexivity].
  - eexists _, _. split; [reflexivity|]. split; reflexivity.
Qed.

Lemma password_change_redirect_witness :
  snd (AuthUtils.checkAuth (inl (Api.Plain password_change_required))
         {| AuthUtils.user := None; AuthUtils.loading := true |}) =
    [ {| AuthUtils.to := "/force-change-password"; AuthUtils.replace := true |} ]
  /\ Api.onRejected Api.idle password_change_required =
       (Api.idle, Api.Rejected (Api.Plain password_change_required)).
Proof.
  pose proof (password_change_redirect {| AuthUtils.user := None; AuthUtils.loading := true |})
    as (Hnav & _ & Hpass & _).
  split.
  - exact (proj1 (Hnav (Api.Plain password_change_required))).
  - exact (Hpass Api.idle password_change_required eq_refl).
Defined.

(** X10: a rejected sign-in is never retried.  Whatever its status other
    than 402 and whatever the client state, even while another request's
    refresh is in flight, the interceptor hands the error on with flag and
    queue untouched; with status 402 it rejects with the enterprise error.
    The form never navigates, and it stores the response's detail as it is
    whenever that is truthy, a non-empty string or a list of validation
    errors alike, and the text "Invalid email or password" when the detail
    is absent, null, empty or otherwise falsy, when there is no response,
    and for the enterprise error; the stored value is never falsy. *)
Theorem failed_sign_in_is_not_retried :
  forall (st : Api.Client) (marked : bool) (msg : string)
         (resp : option AuthUtils.SignInResponse),
    let error := {| AuthUtils.signin_config :=
                      {| Api.url := Some AuthUtils.login_url; Api._retry := marked |};
                    AuthUtils.signin_message := msg;
                    AuthUtils.signin_response := resp |} in
    let shown posted := AuthUtils.adminError (fst (AuthUtils.handleAdminSignIn posted)) in
    (Api.status_is (AuthUtils.as_axios error) 402 = false ->
       Api.onRejected st (AuthUtils.as_axios error)
         = (st, Api.Rejected (Api.Plain (AuthUtils.as_axios error)))
       /\ AuthUtils.intercept st error = (st, Some (AuthUtils.PassedOn error)))
    /\ (Api.status_is (AuthUtils.as_axios error) 402 = true ->
          AuthUtils.intercept st error = (st, Some AuthUtils.Enterprise))
    /\ (exists posted,
          AuthUtils.intercept st error = (st, Some posted)
          /\ snd (AuthUtils.handleAdminSignIn posted) = []
          /\ AuthUtils.isAdminLoading (fst (AuthUtils.handleAdminSignIn posted)) = false
          /\ AuthUtils.truthy (shown posted) = true)
    /\ shown AuthUtils.Enterprise = AuthUtils.Str "Invalid email or password"
    /\ (resp = None ->
          shown (AuthUtils.PassedOn error) = AuthUtils.Str "Invalid email or password")
    /\ (forall code detail,
          resp = Some {| AuthUtils.signin_status := code;
                         AuthUtils.signin_detail := detail |} ->
          shown (AuthUtils.PassedOn error) =
            (if AuthUtils.truthy detail then detail
             else AuthUtils.Str "Invalid email or password"))
    /\ (forall code d,
          resp = Some {| AuthUtils.signin_status := code;
                         AuthUtils.signin_detail := AuthUtils.Str d |} ->
          d <> "" -> shown (AuthUtils.PassedOn error) = AuthUtils.Str d)
    /\ (forall code json,
          resp = Some {| AuthUtils.signin_status := code;
                         AuthUtils.signin_detail := AuthUtils.Structured json |} ->
          shown (AuthUtils.PassedOn error) = AuthUtils.Structured json)
    /\ (forall code detail,
          resp = Some {| AuthUtils.signin_status := code;
                         AuthUtils.signin_detail := detail |} ->
          detail = AuthUtils.Undefined \/ detail = AuthUtils.Null
          \/ detail = AuthUtils.Str "" \/ detail = AuthUtils.Boolean false
          \/ detail = AuthUtils.Number 0 ->
          shown (AuthUtils.PassedOn error) = AuthUtils.Str "Invalid email or password").
Proof.
  intros st marked msg resp error shown.
  assert (Hskip : Api.shouldSkipRefresh (Api.config (AuthUtils.as_axios error)) = true)
    by reflexivity.
  assert (Hpass : Api.status_is (AuthUtils.as_axios error) 402 = false ->
                  Api.onRejected st (AuthUtils.as_axios error)
                  = (st, Api.Rejected (Api.Plain (AuthUtils.as_axios error)))).
  { intros H2. apply onRejected_not_refreshable; [exact H2|].
    rewrite Hskip. cbn. now rewrite andb_false_r. }
  assert (Htruthy : forall a,
             AuthUtils.truthy (AuthUtils.or_else a AuthUtils.invalidCredentials) = true).
  { intros a. unfold AuthUtils.or_else.
    destruct (AuthUtils.truthy a) eqn:Ha; [exact Ha | reflexivity]. }
  split; [|split; [|split; [|split; [|split; [|split; [|split; [|split]]]]]]].
  - intros H2. split; [now apply Hpass|].
    unfold AuthUtils.intercept. now rewrite (Hpass H2).
  - intros H2. unfold AuthUtils.intercept. now rewrite (onRejected_402 _ _ H2).
  - destruct (Api.status_is (AuthUtils.as_axios error) 402) eqn:H2.
    + exists AuthUtils.Enterprise. split.
      * unfold AuthUtils.intercept. now rewrite (onRejected_402 _ _ H2).
      * split; [reflexivity|]. split; reflexivity.
    + exists (AuthUtils.PassedOn error). split.
      * unfold AuthUtils.intercept. now rewrite (Hpass eq_refl).
      * split; [reflexivity|]. split; [reflexivity|]. apply Htruthy.
  - reflexivity.
  - intros ->. reflexivity.
  - intros code detail ->. reflexivity.
  - intros code d -> Hd. subst shown. cbn. unfold AuthUtils.or_else. cbn.
    now rewrite bool_decide_eq_false_2.
  - intros code json ->. reflexivity.
  - intros code detail -> Hfalsy. subst shown. cbn. unfold AuthUtils.or_else.
    destruct Hfalsy as [-> | [-> | [-> | [-> | ->]]]]; reflexivity.
Qed.

Lemma failed_sign_in_is_not_retried_witness :
  Api.onRejected {| Api.isRefreshing := true; Api.refreshSubscribers := [request_b] |}
    (AuthUtils.as_axios invalid_sign_in)
  = ({| Api.isRefreshing := true; Api.refreshSubscribers := [request_b] |},
     Api.Rejected (Api.Plain (AuthUtils.as_axios invalid_sign_in)))
  /\ AuthUtils.adminError
       (fst (AuthUtils.handleAdminSignIn (AuthUtils.PassedOn invalid_sign_in)))
     = AuthUtils.Structured "[{'loc':['body','email'],'msg':'field required'}]".
Proof.
  pose proof (failed_sign_in_is_not_retried
                {| Api.isRefreshing := true; Api.refreshSubscribers := [request_b] |}
                false "Request failed with status code 422"
                (Some {| AuthUtils.signin_status := 422;
                         AuthUtils.signin_detail :=
                           AuthUtils.Structured
                             "[{'loc':['body','email'],'msg':'field required'}]" |}))
    as (Hpass & _ & _ & _ & _ & _ & _ & Hlist & _).
  split.
  - exact (proj1 (Hpass eq_refl)).
  - exact (Hlist 422%Z _ eq_refl).
Defined.

(** ** Scope lists of the provider form *)

Section ScopeFacts.

Import PasswordValidation Scopes.

Lemma split_on_without x :
  ~ In comma x -> split_on comma x = [ x ].
Proof.
  induction x as [|u x IH]; intros Hno; [reflexivity|].
  cbn [split_on]. destruct (N.eqb_spec u comma) as [-> | _].
  - exfalso. apply Hno. now left.
  - rewrite IH; [reflexivity|]. intros Hin. apply Hno. now right.
Qed.

Lemma split_on_app x rest :
  ~ In comma x -> split_on comma (x ++ comma :: rest) = x :: split_on comma rest.
Proof.
  induction x as [|u x IH]; intros Hno.
  - cbn. reflexivity.
  - cbn [app split_on]. destruct (N.eqb_spec u comma) as [-> | _].
    + exfalso. apply Hno. now left.
    + rewrite IH; [reflexivity|]. intros Hin. apply Hno. now right.
Qed.

Lemma split_join x rest :
  Forall (fun piece => ~ In comma piece) (x :: rest) ->
  split_on comma (join_scopes (x :: rest)) = x :: map (cons 32%N) rest.
Proof.
  revert x. induction rest as [|y rest IH]; intros x Hall.
  - cbn. apply split_on_without. now inversion Hall.
  - inversion Hall as [|? ? Hx Hrest]; subst.
    change (join_scopes (x :: y :: rest))
      with (x ++ comma :: 32%N :: join_scopes (y :: rest)).
    rewrite split_on_app by exact Hx.
    cbn [split_on]. change (N.eqb 32 comma) with false. cbn iota.
    now rewrite (IH y Hrest).
Qed.

Lemma trimStart_suffix s u : In u (trimStart s) -> In u s.
Proof.
  induction s as [|v s IH]; [trivial|]. cbn [trimStart].
  destruct (is_whitespace v); [|trivial]. intros H. right. now apply IH.
Qed.

Lemma trim_sub s u : In u (trim s) -> In u s.
Proof.
  unfold trim, trimEnd. intros H. apply trimStart_suffix.
  apply in_rev. apply trimStart_suffix. now apply in_rev in H.
Qed.

Lemma split_on_pieces s :
  Forall (fun piece => ~ In comma piece) (split_on comma s).
Proof.
  induction s as [|u s IH]; cbn [split_on].
  - constructor; [intros [] | constructor].
  - destruct (N.eqb_spec u comma) as [-> | Hne].
    + constructor; [intros [] | exact IH].
    + destruct (split_on comma s) as [|piece pieces].
      * constructor; [|constructor]. intros [H | []]. congruence.
      * inversion IH as [|? ? Hpiece Hpieces]; subst.
        constructor; [|exact Hpieces]. intros [H | H]; [congruence | contradiction].
Qed.

End ScopeFacts.

(** X11: a list of scopes survives the edit form: joined with ", " as
    [startEditingProvider] shows it and split again as the two submit
    handlers do, it comes back unchanged, provided every scope is non-empty,
    holds no comma and has no white space at either end; and whatever text
    is typed, no scope that is sent is empty or holds a comma. *)
Theorem scopes_round_trip :
  forall (scopes : list PasswordValidation.jsstring) (typed : PasswordValidation.jsstring),
    Forall (fun scope => scope <> [] /\ ~ In Scopes.comma scope
                         /\ Scopes.trim scope = scope) scopes ->
    Scopes.split_scopes (Scopes.join_scopes scopes) = scopes
    /\ Forall (fun scope => scope <> [] /\ ~ In Scopes.comma scope)
         (Scopes.split_scopes typed).
Proof.
  intros scopes typed Hclean. split.
  - destruct scopes as [|x rest]; [reflexivity|].
    unfold Scopes.split_scopes. rewrite split_join.
    2:{ eapply Forall_impl; [exact Hclean|]. cbn. tauto. }
    rewrite map_cons, map_map.
    assert (Hfix : forall l,
      Forall (fun scope => scope <> [] /\ ~ In Scopes.comma scope
                           /\ Scopes.trim scope = scope) l ->
      List.filter (fun piece => negb (PasswordValidation.falsy piece))
        (map (fun y => Scopes.trim (32%N :: y)) l) = l).
    { induction 1 as [|y l (Hne & _ & Htrim) _ IH]; [reflexivity|].
      cbn [map List.filter].
      change (Scopes.trim (32%N :: y)) with (Scopes.trim y). rewrite Htrim.
      destruct y; [contradiction|]. cbn [PasswordValidation.falsy negb].
      now rewrite IH. }
    inversion Hclean as [|? ? (Hne & _ & Htrim) Hrest]; subst.
    cbn [List.filter]. rewrite Htrim. destruct x; [contradiction|].
    cbn [PasswordValidation.falsy negb]. now rewrite Hfix.
  - unfold Scopes.split_scopes. apply List.Forall_forall. intros scope Hin.
    apply List.filter_In in Hin as [Hin Hne]. split.
    + intros ->. discriminate.
    + apply in_map_iff in Hin as (piece & <- & Hpiece).
      pose proof (split_on_pieces typed) as Hall.
      rewrite List.Forall_forall in Hall. intros Hc.
      apply (Hall piece Hpiece). now apply trim_sub.
Qed.

Lemma scopes_round_trip_witness :
  Scopes.split_scopes
    (Scopes.join_scopes [ PasswordValidation.units "repo";
                          PasswordValidation.units "read:org" ]) =
  [ PasswordValidation.units "repo"; PasswordValidation.units "read:org" ].
Proof.
  refine (proj1 (scopes_round_trip
                   [ PasswordValidation.units "repo"; PasswordValidation.units "read:org" ]
                   [] _)).
  repeat constructor; try discriminate; vm_compute; intuition discriminate.
Defined.

(** ** The two password validators *)

(** X12: the reset form is accepted exactly when the token is non-empty, the
    two passwords agree and have at least eight code units; the
    change-password validator accepts exactly when the reset validator
    accepts the same three entries (the old password in the place of the
    token) and the new password differs from the old one; and a refused
    reset form posts nothing. *)
Theorem reset_form_requirements :
  forall (token newPassword confirmPassword : PasswordValidation.jsstring),
    (fst (ResetForm.validatePasswordForm token newPassword confirmPassword) = true <->
       token <> [] /\ newPassword = confirmPassword /\ 8 <= length newPassword)
    /\ (PasswordValidation.isValid
          (PasswordValidation.validatePasswordChange
             {| PasswordValidation.oldPassword := token;
                PasswordValidation.newPassword := newPassword;
                PasswordValidation.confirmPassword := confirmPassword |}) = true <->
        fst (ResetForm.validatePasswordForm token newPassword confirmPassword) = true
        /\ token <> newPassword)
    /\ (fst (ResetForm.validatePasswordForm token newPassword confirmPassword) = false ->
        forall post,
          snd (ResetForm.handleResetPassword post token newPassword confirmPassword) = []
          /\ snd (fst (ResetForm.handleResetPassword post token newPassword
                         confirmPassword)) = false).
Proof.
  intros token new conf.
  assert (Hreset :
    fst (ResetForm.validatePasswordForm token new conf) = true <->
    token <> [] /\ new = conf /\ 8 <= length new).
  { unfold ResetForm.validatePasswordForm.
    destruct token as [|t token]; cbn [PasswordValidation.falsy orb].
    { cbn. split; [discriminate | intros [[] _]; reflexivity]. }
    destruct new as [|n new]; cbn [PasswordValidation.falsy orb].
    { cbn. split; [discriminate | intros (_ & _ & H); cbn in H; lia]. }
    destruct conf as [|c conf]; cbn [PasswordValidation.falsy orb].
    { cbn. split; [discriminate | intros (_ & H & _); discriminate]. }
    case_bool_decide as Heq; cbn [negb].
    2:{ cbn. split; [discriminate | intros (_ & H & _); contradiction]. }
    destruct (Nat.ltb_spec (length (n :: new)) 8) as [Hlt | Hge]; cbn [fst].
    - split; [discriminate | intros (_ & _ & H); lia].
    - split; [intros _ | reflexivity]. repeat split; [discriminate | exact Heq | exact Hge]. }
  split; [exact Hreset|]. split.
  - rewrite validatePasswordChange_valid, Hreset. cbn. split.
    + intros (Ho & Hn & Hc & Heq & Hlen & Hne). repeat split; assumption.
    + intros ((Ho & Heq & Hlen) & Hne). repeat split; try assumption.
      * intros ->. cbn in Hlen. lia.
      * intros ->. subst new. cbn in Hlen. lia.
  - intros Hbad post. unfold ResetForm.handleResetPassword.
    destruct (ResetForm.validatePasswordForm token new conf) as [[|] e];
      [discriminate | split; reflexivity].
Qed.

Lemma reset_form_requirements_witness :
  snd (ResetForm.handleResetPassword (fun _ _ => PasswordValidation.PostResolved)
         (PasswordValidation.units "tok")
         (PasswordValidation.units "short") (PasswordValidation.units "short")) = [].
Proof.
  exact (proj1 (proj2 (proj2 (reset_form_requirements (PasswordValidation.units "tok")
                                 (PasswordValidation.units "short")
                                 (PasswordValidation.units "short")))
                  eq_refl (fun _ _ => PasswordValidation.PostResolved))).
Defined.

(** ** Server lists of the two dashboards *)

Section DashboardFacts.

Import AdminDashboard.

Lemma available_spec catalog configured c :
  In c (availableServers catalog configured) <->
  In c catalog /\ forall s, In s configured -> server_id s <> id c.
Proof.
  unfold availableServers. rewrite List.filter_In, negb_true_iff. split.
  - intros [Hin Hnone]. split; [exact Hin|]. intros s Hs Heq.
    assert (Hex : existsb (fun configured0 =>
                    bool_decide (server_id configured0 = id c)) configured = true).
    { apply existsb_exists. exists s. split; [exact Hs | now apply bool_decide_eq_true_2]. }
    congruence.
  - intros [Hin Hnone]. split; [exact Hin|].
    destruct (existsb _ configured) eqn:Hex; [|reflexivity].
    apply existsb_exists in Hex as (s & Hs & Heq).
    apply bool_decide_eq_true in Heq. now destruct (Hnone s Hs).
Qed.

End DashboardFacts.

(** X13: no server offered from the catalog is already configured; once a
    configured server has been removed, the catalog entries offered are
    those offered before together with the entries of the removed server;
    and switching a server on or off changes nothing about what is
    offered. *)
Theorem catalog_offers_only_unconfigured :
  forall (catalog : list AdminDashboard.CatalogServer)
         (configured : list AdminDashboard.ConfiguredServer)
         (serverId : string) (c : AdminDashboard.CatalogServer),
    (In c (AdminDashboard.availableServers catalog configured) ->
       forall s, In s configured -> AdminDashboard.server_id s <> AdminDashboard.id c)
    /\ (In c (AdminDashboard.availableServers catalog
                (AdminDashboard.handleRemoveServer true true serverId configured)) <->
        In c (AdminDashboard.availableServers catalog configured)
        \/ (In c catalog /\ AdminDashboard.id c = serverId))
    /\ (forall ok currentEnabled,
          AdminDashboard.availableServers catalog
            (AdminDashboard.toggleServerEnabled ok serverId currentEnabled configured)
          = AdminDashboard.availableServers catalog configured).
Proof.
  intros catalog configured serverId c. split; [|split].
  - intros Hin. now apply available_spec in Hin.
  - rewrite !available_spec. cbn [AdminDashboard.handleRemoveServer]. split.
    + intros [Hin Hnone].
      destruct (decide (AdminDashboard.id c = serverId)) as [Heq | Hne]; [now right|].
      left. split; [exact Hin|]. intros s Hs Hid. apply (Hnone s); [|exact Hid].
      apply List.filter_In. split; [exact Hs|].
      apply negb_true_iff, bool_decide_eq_false_2. congruence.
    + intros [[Hin Hnone] | [Hin Heq]]; (split; [exact Hin|]); intros s Hs.
      * apply List.filter_In in Hs as [Hs _]. now apply Hnone.
      * apply List.filter_In in Hs as [_ Hkeep].
        apply negb_true_iff, bool_decide_eq_false in Hkeep. congruence.
  - intros ok cur. unfold AdminDashboard.toggleServerEnabled.
    destruct ok; [|reflexivity].
    unfold AdminDashboard.availableServers. apply List.filter_ext. intros entry.
    f_equal. induction configured as [|s rest IH]; [reflexivity|].
    cbn [map existsb]. rewrite IH. f_equal. now case_decide.
Qed.

Lemma catalog_offers_only_unconfigured_witness :
  In {| AdminDashboard.id := "github-mcp"; AdminDashboard.name := "GitHub";
        AdminDashboard.category := "Development" |}
     (AdminDashboard.availableServers sample_catalog
        (AdminDashboard.handleRemoveServer true true "github-mcp" sample_configured)).
Proof.
  apply (proj2 (proj1 (proj2 (catalog_offers_only_unconfigured sample_catalog
                                sample_configured "github-mcp"
                                {| AdminDashboard.id := "github-mcp";
                                   AdminDashboard.name := "GitHub";
                                   AdminDashboard.category := "Development" |})))).
  right. split; [now left | reflexivity].
Defined.

(** X14: disconnecting a server twice is the same as disconnecting it once;
    disconnecting and switching servers on or off can be done in either
    order; a disconnected server keeps its on/off setting; and pressing
    Connect on a disconnected server that requires authorization starts the
    authorization again. *)
Theorem disconnect_composes :
  forall (servers : list Dashboard.Server) (serverId other : string) (cur : bool)
         (i : nat) (server : Dashboard.Server),
    Dashboard.handleDisconnect true serverId
      (Dashboard.handleDisconnect true serverId servers)
    = Dashboard.handleDisconnect true serverId servers
    /\ Dashboard.handleDisconnect true serverId
         (Dashboard.handleToggleEnabled true other cur servers)
       = Dashboard.handleToggleEnabled true other cur
           (Dashboard.handleDisconnect true serverId servers)
    /\ (servers !! i = Some server -> Dashboard.id server = serverId ->
        exists after,
          Dashboard.handleDisconnect true serverId servers !! i = Some after
          /\ Dashboard.is_authorized after = false
          /\ Dashboard.authorized_at after = None
          /\ Dashboard.is_enabled after = Dashboard.is_enabled server
          /\ (Dashboard.requires_auth server = true ->
              Dashboard.handleConnect after = Dashboard.Authorize serverId)).
Proof.
  intros servers serverId other cur i server. split; [|split].
  - cbn [Dashboard.handleDisconnect]. rewrite map_map. apply map_ext. intros s.
    destruct (decide (Dashboard.id s = serverId)) as [Hs | Hs]; cbn [Dashboard.id];
      [rewrite decide_True by exact Hs | rewrite decide_False by exact Hs];
      reflexivity.
  - cbn [Dashboard.handleDisconnect Dashboard.handleToggleEnabled].
    rewrite !map_map. apply map_ext. intros s.
    destruct (decide (Dashboard.id s = other)) as [Ho | Ho];
      destruct (decide (Dashboard.id s = serverId)) as [Hs | Hs];
      repeat (first [ rewrite decide_True by assumption
                    | rewrite decide_False by assumption
                    | progress cbn [Dashboard.id] ]);
      reflexivity.
  - intros Hi Hid. cbn [Dashboard.handleDisconnect].
    rewrite list_lookup_fmap, Hi. cbn [fmap option_fmap option_map].
    rewrite decide_True by exact Hid. eexists. split; [reflexivity|]. cbn.
    repeat split. intros Hreq. unfold Dashboard.handleConnect. cbn.
    now rewrite Hreq, Hid.
Qed.

Lemma disconnect_composes_witness :
  exists after,
    Dashboard.handleDisconnect true "github-mcp" [ sample_server ] !! 0%nat = Some after
    /\ Dashboard.handleConnect after = Dashboard.Authorize "github-mcp".
Proof.
  destruct (proj2 (proj2 (disconnect_composes [ sample_server ] "github-mcp" "x" true 0
                            sample_server)) eq_refl eq_refl)
    as (after & Hat & _ & _ & _ & Hconnect).
  exists after. split; [exact Hat | exact (Hconnect eq_refl)].
Defined.

(** ** Sidebar, toasts and the add-server form *)

(** X15: the name shown in the sidebar never exceeds fifteen code units and
    the e-mail address never eighteen; a name of one to twelve units is shown
    as it is, and a longer one as its first twelve units followed by three
    dots. *)
Theorem sidebar_labels_are_bounded :
  forall (name email : option PasswordValidation.jsstring),
    length (Sidebar.shown_name name) <= 15
    /\ length (Sidebar.shown_email email) <= 18
    /\ (forall n, name = Some n -> 1 <= length n <= 12 -> Sidebar.shown_name name = n)
    /\ (forall n, name = Some n -> 12 < length n ->
          Sidebar.shown_name name = firstn 12 n ++ PasswordValidation.units "..."
          /\ length (Sidebar.shown_name name) = 15).
Proof.
  intros name email. split; [|split; [|split]].
  - unfold Sidebar.shown_name. destruct name as [n|]; [|cbn; lia].
    destruct n as [|u n]; [cbn; lia|]. cbn [PasswordValidation.falsy].
    destruct (Nat.ltb_spec 12 (length (u :: n))) as [Hlong | Hshort]; [|lia].
    rewrite length_app, length_firstn. cbn [PasswordValidation.units length] in *. lia.
  - unfold Sidebar.shown_email. destruct email as [e|]; [|cbn; lia].
    destruct e as [|u e]; [cbn; lia|]. cbn [PasswordValidation.falsy].
    destruct (Nat.ltb_spec 15 (length (u :: e))) as [Hlong | Hshort]; [|lia].
    rewrite length_app, length_firstn. cbn [PasswordValidation.units length] in *. lia.
  - intros n -> Hlen. unfold Sidebar.shown_name.
    destruct n as [|u n]; [cbn in Hlen; lia|]. cbn [PasswordValidation.falsy].
    destruct (Nat.ltb_spec 12 (length (u :: n))) as [Hlong | Hshort]; [lia | reflexivity].
  - intros n -> Hlen. unfold Sidebar.shown_name.
    destruct n as [|u n]; [cbn in Hlen; lia|]. cbn [PasswordValidation.falsy].
    destruct (Nat.ltb_spec 12 (length (u :: n))) as [Hlong | Hshort]; [|lia].
    split; [reflexivity|].
    rewrite length_app, length_firstn. cbn [PasswordValidation.units length] in *. lia.
Qed.

Lemma sidebar_labels_are_bounded_witness :
  Sidebar.shown_name (Some (PasswordValidation.units "Administrator of Arka")) =
  PasswordValidation.units "Administrato...".
Proof.
  destruct (sidebar_labels_are_bounded
              (Some (PasswordValidation.units "Administrator of Arka")) None)
    as (_ & _ & _ & Hlong).
  refine (proj1 (Hlong (PasswordValidation.units "Administrator of Arka") eq_refl _)).
  cbn. lia.
Defined.

(** X16: a toast added under an identifier no shown toast carries is gone
    again, with the list as it was, once it is dismissed or its timer fires;
    dismissing twice is the same as dismissing once; and dismissing one
    identifier leaves every toast with another identifier in place and in
    order. *)
Theorem toast_add_then_dismiss :
  forall (drawn other : string) (toast : Toasts.Toast) (prev : list Toasts.Toast),
    (Forall (fun t => Toasts.id t <> drawn) prev ->
       Toasts.removeToast drawn (Toasts.addToast drawn toast prev) = prev)
    /\ Toasts.removeToast drawn (Toasts.removeToast drawn prev) =
       Toasts.removeToast drawn prev
    /\ (other <> drawn ->
        List.filter (fun t => bool_decide (Toasts.id t = other))
          (Toasts.removeToast drawn prev)
        = List.filter (fun t => bool_decide (Toasts.id t = other)) prev).
Proof.
  intros drawn other toast prev. split; [|split].
  - intros Hfresh. unfold Toasts.removeToast, Toasts.addToast.
    rewrite List.filter_app. cbn. rewrite bool_decide_eq_true_2 by reflexivity.
    cbn. rewrite app_nil_r.
    induction Hfresh as [|t prev Ht _ IH]; [reflexivity|].
    cbn. rewrite bool_decide_eq_false_2 by exact Ht. cbn. now rewrite IH.
  - unfold Toasts.removeToast.
    induction prev as [|t prev IH]; [reflexivity|].
    cbn. destruct (bool_decide (Toasts.id t = drawn)) eqn:Ht; cbn; [exact IH|].
    now rewrite Ht, IH.
  - intros Hne. unfold Toasts.removeToast.
    induction prev as [|t prev IH]; [reflexivity|].
    cbn. destruct (decide (Toasts.id t = drawn)) as [Ht | Ht].
    + rewrite (bool_decide_eq_true_2 _ Ht). cbn.
      rewrite (bool_decide_eq_false_2 (Toasts.id t = other)) by congruence. exact IH.
    + rewrite (bool_decide_eq_false_2 _ Ht). cbn.
      destruct (bool_decide (Toasts.id t = other)); now rewrite IH.
Qed.

Lemma toast_add_then_dismiss_witness :
  Toasts.removeToast "k3j9x0a1b"
    (Toasts.addToast "k3j9x0a1b"
       {| Toasts.id := ""; Toasts.type := "success";
          Toasts.message := "Override removed, reverted to organization default";
          Toasts.duration := None |} []) = [].
Proof.
  exact (proj1 (toast_add_then_dismiss "k3j9x0a1b" ""
                  {| Toasts.id := ""; Toasts.type := "success";
                     Toasts.message := "Override removed, reverted to organization default";
                     Toasts.duration := None |} []) (List.Forall_nil _)).
Defined.

Section AddServerFacts.

Import AddServer.

Lemma missingFields_nil auth_fields credentials :
  missingFields auth_fields credentials = [] <->
  Forall (fun field => required field = true -> filled credentials (name field) = true)
    auth_fields.
Proof.
  unfold missingFields. induction auth_fields as [|field rest IH].
  - split; [constructor | reflexivity].
  - cbn [List.filter].
    destruct (required field) eqn:Hreq;
      [destruct (filled credentials (name field)) eqn:Hf|]; cbn [andb negb].
    + rewrite IH. split; [intros H; constructor; [congruence | exact H]
                         | intros H; now inversion H].
    + cbn [map]. split; [discriminate|]. intros H. inversion H as [|? ? H1 _].
      specialize (H1 Hreq). congruence.
    + rewrite IH. split; [intros H; constructor; [congruence | exact H]
                         | intros H; now inversion H].
Qed.

End AddServerFacts.

(** X17: the add-server form posts exactly when every required field is
    filled, and otherwise shows an error and posts nothing; typing a
    non-empty value into a field makes that field count as filled and leaves
    the status of every other field as it was; a field that was never typed
    into counts as missing unless its name is that of an inherited
    property. *)
Theorem add_server_needs_required_fields :
  forall (auth_fields : list AddServer.AuthField) (credentials : gmap string string),
    (AddServer.handleSubmit auth_fields credentials = AddServer.Posted credentials <->
       Forall (fun field => AddServer.required field = true ->
                            AddServer.filled credentials (AddServer.name field) = true)
         auth_fields)
    /\ ((exists field, In field auth_fields /\ AddServer.required field = true
                       /\ AddServer.filled credentials (AddServer.name field) = false) ->
        exists error, AddServer.handleSubmit auth_fields credentials = AddServer.Refused error)
    /\ (forall fieldName value other,
          value <> "" ->
          AddServer.filled (AddServer.handleInputChange fieldName value credentials)
            fieldName = true
          /\ (other <> fieldName ->
              AddServer.filled (AddServer.handleInputChange fieldName value credentials) other
              = AddServer.filled credentials other))
    /\ (forall fieldName,
          credentials !! fieldName = None ->
          fieldName ∉ ToolGroups.objectPrototypeKeys ->
          AddServer.filled credentials fieldName = false).
Proof.
  intros auth_fields credentials.
  assert (Hpost :
    AddServer.handleSubmit auth_fields credentials = AddServer.Posted credentials <->
    Forall (fun field => AddServer.required field = true ->
                         AddServer.filled credentials (AddServer.name field) = true)
      auth_fields).
  { rewrite <- missingFields_nil. unfold AddServer.handleSubmit.
    destruct (AddServer.missingFields auth_fields credentials);
      split; (reflexivity || discriminate). }
  split; [exact Hpost|]. split; [|split].
  - intros (field & Hin & Hreq & Hmiss). unfold AddServer.handleSubmit.
    destruct (AddServer.missingFields auth_fields credentials) eqn:Hm; [|eauto].
    exfalso. apply missingFields_nil in Hm. rewrite List.Forall_forall in Hm.
    rewrite (Hm field Hin Hreq) in Hmiss. discriminate.
  - intros fieldName value other Hne.
    unfold AddServer.filled, AddServer.handleInputChange. split.
    + rewrite lookup_insert_eq. now rewrite bool_decide_eq_false_2.
    + intros Hother. now rewrite lookup_insert_ne.
  - intros fieldName Hnone Hown. unfold AddServer.filled. rewrite Hnone.
    now apply bool_decide_eq_false_2.
Qed.

Lemma add_server_needs_required_fields_witness :
  AddServer.handleSubmit sample_fields
    (AddServer.handleInputChange "client_secret" "shhh-1234"
       (AddServer.handleInputChange "client_id" "Iv1.8a61f9b3a7aba766" ∅))
  = AddServer.Posted
      (AddServer.handleInputChange "client_secret" "shhh-1234"
         (AddServer.handleInputChange "client_id" "Iv1.8a61f9b3a7aba766" ∅)).
Proof.
  apply (proj2 (proj1 (add_server_needs_required_fields sample_fields
                  (AddServer.handleInputChange "client_secret" "shhh-1234"
                     (AddServer.handleInputChange "client_id" "Iv1.8a61f9b3a7aba766" ∅))))).
  repeat constructor; vm_compute; (reflexivity || discriminate).
Defined.

Lemma tool_toggle_is_an_involution_witness :
  "delete_repo" ∈ ToolPermissions.handleToolToggle "create_issue"
                    (ToolPermissions.fetched_enabled sample_server_tools)
  <-> "delete_repo" ∈ ToolPermissions.fetched_enabled sample_server_tools.
Proof.
  refine (proj2 (proj2 (tool_toggle_is_an_involution "create_issue"
                          (ToolPermissions.fetched_enabled sample_server_tools)))
            "delete_repo" _).
  discriminate.
Defined.
